(** * Todo backend: ownership pipeline and task lifecycle

    A shallow embedding of the request pipeline of the task-tracking
    backend ([src/api/deps.py], [src/api/tasks.py], [src/models/task.py],
    [src/db/session.py] and the table definition of
    [alembic/versions/001_create_task_table.py]), followed by the properties
    of the token verifier, the ownership guard and the task lifecycle
    handlers.

    Conventions of the embedding:
    - a Python [str] is a [string]; each character stands for one code
      point below 256, [len] is [String.length];
    - a [datetime] is the number of microseconds since the epoch, a [Z];
    - attributes that can hold [None] at run time are [option]s;
    - handlers are computations in a state-and-exception monad over a
      [World] made of the database and the wall clock. *)

From Stdlib Require Import ZArith Ascii String List Sorted Permutation.
From stdpp Require Import base tactics option list gmap strings.

Local Open Scope string_scope.
Local Open Scope Z_scope.

(** ** Python strings *)

Module PyStr.

(** [str.isspace] on one code point below 256: the ASCII table
    (TAB, LF, VT, FF, CR, FS, GS, RS, US, SPACE) and the two Latin-1
    code points NEL (0x85) and NBSP (0xA0). *)
Definition isspace (c : ascii) : bool :=
  let n := nat_of_ascii c in
  ((9 <=? n) && (n <=? 13) || (28 <=? n) && (n <=? 32)
   || (n =? 133) || (n =? 160))%nat.

(** [s.lstrip()] *)
Fixpoint lstrip (s : string) : string :=
  match s with
  | EmptyString => EmptyString
  | String c r => if isspace c then lstrip r else s
  end.

(** [s.rstrip()] *)
Fixpoint rstrip (s : string) : string :=
  match s with
  | EmptyString => EmptyString
  | String c r =>
      match rstrip r with
      | EmptyString => if isspace c then EmptyString else String c EmptyString
      | r' => String c r'
      end
  end.

(** [s.strip()] *)
Definition strip (s : string) : string := rstrip (lstrip s).

(** [len(s)] *)
Definition len (s : string) : nat := String.length s.

(** Truth value of a string: [bool(s)], false exactly for the empty one. *)
Definition truthy (s : string) : bool :=
  match s with
  | EmptyString => false
  | String _ _ => true
  end.

(** [c * n], the string of [n] copies of [c]. *)
Fixpoint repeat (c : ascii) (n : nat) : string :=
  match n with
  | O => EmptyString
  | S k => String c (repeat c k)
  end.

End PyStr.

(** ** Data model ([src/models/task.py]) *)

(** A [datetime], in microseconds since the epoch. *)
Definition datetime : Type := Z.

(** The persisted entity, class [Task].  [id] is [None] until the row is
    flushed; [is_completed] is declared [bool] but, like every attribute of
    a table model, takes whatever [setattr] gives it. *)
Module Task.

Record t : Type := mk {
  id : option Z;
  user_id : string;
  title : string;
  description : option string;
  is_completed : option bool;
  created_at : datetime;
  updated_at : datetime
}.

#[global] Instance eq_dec : EqDecision t.
Proof. solve_decision. Defined.

(** [setattr(task, "title", v)] and its siblings. *)
Definition set_id (v : option Z) (x : t) : t :=
  mk v (user_id x) (title x) (description x) (is_completed x)
     (created_at x) (updated_at x).

Definition set_title (v : string) (x : t) : t :=
  mk (id x) (user_id x) v (description x) (is_completed x)
     (created_at x) (updated_at x).

Definition set_description (v : option string) (x : t) : t :=
  mk (id x) (user_id x) (title x) v (is_completed x)
     (created_at x) (updated_at x).

Definition set_is_completed (v : option bool) (x : t) : t :=
  mk (id x) (user_id x) (title x) (description x) v
     (created_at x) (updated_at x).

Definition set_updated_at (v : datetime) (x : t) : t :=
  mk (id x) (user_id x) (title x) (description x) (is_completed x)
     (created_at x) v.

End Task.

(** Class [TaskCreate]: the body of a creation request. *)
Record TaskCreate : Type := mkTaskCreate {
  create_title : string;
  create_description : option string
}.

(** One attribute of a sparse body: left out of the JSON object, or present
    with a value that may be [null]. *)
Inductive Field (A : Type) : Type :=
| Unset : Field A
| Given : option A -> Field A.

Arguments Unset {A}.
Arguments Given {A} _.

Definition is_set {A} (f : Field A) : bool :=
  match f with
  | Unset => false
  | Given _ => true
  end.

(** Class [TaskUpdate]: the body of an update request.  Every attribute
    defaults to [None]; which ones the client sent is what
    [model_dump(exclude_unset=True)] keeps, so the record doubles as the
    [update_data] dictionary over the keys ["title"], ["description"] and
    ["is_completed"]. *)
Record TaskUpdate : Type := mkTaskUpdate {
  update_title : Field string;
  update_description : Field string;
  update_is_completed : Field bool
}.

(** [not update_data]: the dictionary has no key. *)
Definition update_data_empty (d : TaskUpdate) : bool :=
  negb (is_set (update_title d)) && negb (is_set (update_description d))
  && negb (is_set (update_is_completed d)).

(** ** Failures *)

(** The exceptions a request can end with: the three [HTTPException]
    subclasses of the source, the framework's rejection of a body that
    breaks the schema's [Field] constraints, and the two exceptions of the
    storage layer no handler catches: the rejection of a row that breaks a
    table constraint, and the rejection of a value the driver or the
    server cannot take. *)
Inductive Exception : Type :=
| AuthenticationError (detail : string)
| ValidationError (message field constraint : string)
| NotFoundError (message : string)
| RequestValidationError (field constraint : string)
| IntegrityError (column : string)
| DBAPIError (message : string).

(** [status_code] of the response. *)
Definition status_code (e : Exception) : Z :=
  match e with
  | AuthenticationError _ => 401
  | ValidationError _ _ _ => 400
  | NotFoundError _ => 404
  | RequestValidationError _ _ => 422
  | IntegrityError _ => 500
  | DBAPIError _ => 500
  end.

(** The machine-readable ["code"] of the error body, where the source
    builds one. *)
Definition error_code (e : Exception) : option string :=
  match e with
  | AuthenticationError _ => Some "UNAUTHORIZED"
  | ValidationError _ _ _ => Some "VALIDATION_ERROR"
  | NotFoundError _ => Some "NOT_FOUND"
  | RequestValidationError _ _ => None
  | IntegrityError _ => None
  | DBAPIError _ => None
  end.

Definition is_validation_failure (e : Exception) : bool :=
  match e with
  | ValidationError _ _ _ | RequestValidationError _ _ => true
  | _ => false
  end.

(** ** Token verifier ([src/api/deps.py]) *)

(** The values a decoded claim can hold. *)
Inductive pyval : Type :=
| PyNone
| PyStr (s : string)
| PyInt (n : Z).

Definition is_None (v : pyval) : bool :=
  match v with
  | PyNone => true
  | _ => false
  end.

(** [payload.get(key)]: the value stored under [key], [None] without one. *)
Definition dict_get (payload : gmap string pyval) (key : string) : pyval :=
  match payload !! key with
  | Some v => v
  | None => PyNone
  end.

(** Class [Settings], the two attributes the verifier reads. *)
Record Settings : Type := mkSettings {
  BETTER_AUTH_SECRET : string;
  JWT_ALGORITHM : string
}.

Section TokenVerifier.

(** [jose.jwt.decode(token, key, algorithms)]: the text of the [JWTError]
    it raises, or the decoded claims.  The library is outside the
    repository; the verifier is embedded over any such function. *)
Variable jwt_decode : string -> string -> list string -> string + gmap string pyval.

Variable settings : Settings.

(** [get_current_user_id].  The [AuthenticationError] raised inside the
    [try] is not a [JWTError], so the handler below it does not catch it. *)
Definition get_current_user_id (token : string) : Exception + pyval :=
  match jwt_decode token (BETTER_AUTH_SECRET settings) [JWT_ALGORITHM settings] with
  | inr payload =>
      let user_id := dict_get payload "sub" in
      if is_None user_id
      then inl (AuthenticationError "Token missing user identifier")
      else inr user_id
  | inl e => inl (AuthenticationError ("Invalid token: " ++ e))
  end.

End TokenVerifier.

(** ** The world of a request: database and clock *)

(** Table [task] with its rows in the order a scan meets them, and the
    sequence behind the auto-increment key. *)
Record Db : Type := mkDb {
  rows : list Task.t;
  next_id : Z
}.

(** [clock n] is what the [n]-th call of [datetime.utcnow()] returns. *)
Record World : Type := mkWorld {
  db : Db;
  clock : nat -> datetime;
  ticks : nat
}.

Definition with_db (d : Db) (w : World) : World :=
  mkWorld d (clock w) (ticks w).

(** Computations that read and write the world and may raise. *)
Definition M (A : Type) : Type := World -> (Exception + A) * World.

#[global] Instance M_ret : MRet M :=
  fun A (a : A) (w : World) => (inr a, w).

#[global] Instance M_bind : MBind M :=
  fun A B (f : A -> M B) (m : M A) (w : World) =>
    match m w with
    | (inr a, w') => f a w'
    | (inl e, w') => (inl e, w')
    end.

Definition raise {A} (e : Exception) : M A :=
  fun w => (inl e, w).

Definition get_db : M Db :=
  fun w => (inr (db w), w).

Definition put_db (d : Db) : M unit :=
  fun w => (inr tt, with_db d w).

(** [datetime.utcnow()] *)
Definition utcnow : M datetime :=
  fun w => (inr (clock w (ticks w)), mkWorld (db w) (clock w) (S (ticks w))).

(** ** Session ([src/db/session.py]) and the statements the handlers run *)

(** [get_session]: commit when the handler returns, roll the database back
    when it raises. *)
Definition get_session {A} (handler : M A) : M A :=
  fun w =>
    match handler w with
    | (inr a, w') => (inr a, w')
    | (inl e, w') => (inl e, with_db (db w) w')
    end.

Definition has_id (i : Z) (x : Task.t) : bool :=
  bool_decide (Task.id x = Some i).

(** The values column [id], an [Integer], can hold; the driver refuses to
    bind any other [int]. *)
Definition in_int32 (i : Z) : bool :=
  (-2147483648 <=? i) && (i <=? 2147483647).

(** The string has a NUL character, which the server refuses in a text
    value. *)
Fixpoint has_nul (s : string) : bool :=
  match s with
  | EmptyString => false
  | String c r => (nat_of_ascii c =? 0)%nat || has_nul r
  end.

Definition opt_has_nul (o : option string) : bool :=
  match o with
  | Some s => has_nul s
  | None => false
  end.

(** A flush sends an INSERT with every text attribute of a new task, and
    an UPDATE with the attributes that differ from the row as loaded;
    [sends_nul] tells whether a text value it sends has a NUL. *)
Definition sends_nul (loaded : option Task.t) (task : Task.t) : bool :=
  match loaded with
  | None =>
      has_nul (Task.user_id task) || has_nul (Task.title task)
      || opt_has_nul (Task.description task)
  | Some o =>
      (negb (String.eqb (Task.user_id task) (Task.user_id o))
       && has_nul (Task.user_id task))
      || (negb (String.eqb (Task.title task) (Task.title o))
          && has_nul (Task.title task))
      || (negb (bool_decide (Task.description task = Task.description o))
          && opt_has_nul (Task.description task))
  end.

(** The key sequence of an [Integer] column hands out 1 to 2147483647. *)
Definition sequence_open (d : Db) : bool :=
  (1 <=? next_id d) && (next_id d <=? 2147483647).

(** [session.add(task); await session.flush(); await session.refresh(task)].
    The server refuses a NUL in a text value it is sent, the sequence
    refuses to go past its last key, and the table rejects NULL in
    [is_completed] ([nullable=False]); its other constraints bear on
    attributes the record types as never [None] and on the title, which
    the handlers check before they write.  A task without id is inserted
    under the next key of the sequence; a task with an id overwrites the
    row of that key. *)
Definition add_flush_refresh (task : Task.t) : M Task.t :=
  d ← get_db;
  match Task.id task with
  | None =>
      if sends_nul None task
      then raise (DBAPIError "invalid byte sequence for encoding UTF8: 0x00")
      else if negb (sequence_open d)
      then raise (DBAPIError "nextval: reached maximum value of sequence")
      else
        match Task.is_completed task with
        | None => raise (IntegrityError "is_completed")
        | Some _ =>
            let task' := Task.set_id (Some (next_id d)) task in
            _ ← put_db (mkDb (rows d ++ [task']) (next_id d + 1));
            mret task'
        end
  | Some i =>
      if sends_nul (List.find (has_id i) (rows d)) task
      then raise (DBAPIError "invalid byte sequence for encoding UTF8: 0x00")
      else
        match Task.is_completed task with
        | None => raise (IntegrityError "is_completed")
        | Some _ =>
            _ ← put_db (mkDb (map (fun r => if has_id i r then task else r) (rows d))
                             (next_id d));
            mret task
        end
  end.

(** [await session.delete(task); await session.flush()] *)
Definition delete_flush (task : Task.t) : M unit :=
  d ← get_db;
  put_db (mkDb (List.filter (fun r => negb (bool_decide (Task.id r = Task.id task))) (rows d))
               (next_id d)).

(** [select(Task).where(Task.id == task_id)], then [.scalars().first()].
    The key is bound to an [Integer] column: outside its range the
    statement is refused before it runs. *)
Definition select_by_id_first (task_id : Z) : M (option Task.t) :=
  if in_int32 task_id
  then d ← get_db; mret (List.find (has_id task_id) (rows d))
  else raise (DBAPIError "value out of int32 range").

(** [ORDER BY created_at DESC]: a row moves in front of the rows that are
    strictly older; rows of equal [created_at] keep the order of the scan,
    since the statement names no second key. *)
Fixpoint insert_desc (x : Task.t) (l : list Task.t) : list Task.t :=
  match l with
  | [] => [x]
  | y :: r =>
      if Task.created_at x <? Task.created_at y
      then y :: insert_desc x r
      else x :: l
  end.

Definition order_by_created_at_desc (l : list Task.t) : list Task.t :=
  foldr insert_desc [] l.

Definition owned_by (user_id : string) (x : Task.t) : bool :=
  String.eqb (Task.user_id x) user_id.

(** [select(Task).where(Task.user_id == user_id)
      .order_by(Task.created_at.desc())], then [.scalars().all()] *)
Definition select_by_user_ordered (user_id : string) : M (list Task.t) :=
  d ← get_db;
  mret (order_by_created_at_desc (List.filter (owned_by user_id) (rows d))).

(** ** Schema constraints ([Field(min_length=1, max_length=200)]) *)

(** The check the framework runs on a [str] bound to the [title] field
    before the handler is called. *)
Definition check_title_field (s : string) : M unit :=
  if (PyStr.len s <? 1)%nat
  then raise (RequestValidationError "title" "string_too_short")
  else if (200 <? PyStr.len s)%nat
  then raise (RequestValidationError "title" "string_too_long")
  else mret tt.

(** Validation of a [TaskCreate] body. *)
Definition validate_TaskCreate (task_data : TaskCreate) : M unit :=
  check_title_field (create_title task_data).

(** Validation of a [TaskUpdate] body: [title] is [Optional], so [null]
    passes and only a string is measured. *)
Definition validate_TaskUpdate (task_data : TaskUpdate) : M unit :=
  match update_title task_data with
  | Given (Some s) => check_title_field s
  | _ => mret tt
  end.

(** ** Handlers ([src/api/tasks.py]) *)

(** [not title or not title.strip()] *)
Definition title_missing (title : string) : bool :=
  negb (PyStr.truthy title) || negb (PyStr.truthy (PyStr.strip title)).

(** [create_task] *)
Definition create_task (task_data : TaskCreate) (user_id : string) : M Task.t :=
  if title_missing (create_title task_data)
  then raise (ValidationError "Title is required" "title" "required")
  else if (200 <? PyStr.len (create_title task_data))%nat
  then raise (ValidationError "Title must be 1-200 characters" "title" "length")
  else
    created ← utcnow;
    updated ← utcnow;
    let task :=
      Task.mk None user_id (PyStr.strip (create_title task_data))
              (create_description task_data) (Some false) created updated in
    add_flush_refresh task.

(** [list_tasks] *)
Definition list_tasks (user_id : string) : M (list Task.t) :=
  select_by_user_ordered user_id.

(** [get_task_with_ownership] *)
Definition get_task_with_ownership (task_id : Z) (user_id : string) : M Task.t :=
  found ← select_by_id_first task_id;
  match found with
  | None => raise (NotFoundError "Task not found")
  | Some task =>
      if negb (String.eqb (Task.user_id task) user_id)
      then raise (NotFoundError "Task not found")
      else mret task
  end.

(** The title part of [update_task]: a ["title"] key is checked and
    replaced by its [strip]; [not title] also covers [None]. *)
Definition validate_update_title (update_data : TaskUpdate) : M TaskUpdate :=
  match update_title update_data with
  | Unset => mret update_data
  | Given None => raise (ValidationError "Title is required" "title" "required")
  | Given (Some title) =>
      if title_missing title
      then raise (ValidationError "Title is required" "title" "required")
      else if (200 <? PyStr.len title)%nat
      then raise (ValidationError "Title must be 1-200 characters" "title" "length")
      else mret (mkTaskUpdate (Given (Some (PyStr.strip title)))
                              (update_description update_data)
                              (update_is_completed update_data))
  end.

(** [for field, value in update_data.items(): setattr(task, field, value)].
    A ["title"] key holds a string once [validate_update_title] has run. *)
Definition apply_update_data (update_data : TaskUpdate) (task : Task.t) : Task.t :=
  let task1 :=
    match update_title update_data with
    | Given (Some v) => Task.set_title v task
    | _ => task
    end in
  let task2 :=
    match update_description update_data with
    | Given v => Task.set_description v task1
    | Unset => task1
    end in
  match update_is_completed update_data with
  | Given v => Task.set_is_completed v task2
  | Unset => task2
  end.

(** [update_task] *)
Definition update_task (task_id : Z) (task_data : TaskUpdate) (user_id : string)
  : M Task.t :=
  task ← get_task_with_ownership task_id user_id;
  if update_data_empty task_data
  then mret task
  else
    update_data ← validate_update_title task_data;
    let task := apply_update_data update_data task in
    now ← utcnow;
    let task := Task.set_updated_at now task in
    add_flush_refresh task.

(** [delete_task] *)
Definition delete_task (task_id : Z) (user_id : string) : M unit :=
  task ← get_task_with_ownership task_id user_id;
  delete_flush task.

(** [complete_task] *)
Definition complete_task (task_id : Z) (user_id : string) : M Task.t :=
  task ← get_task_with_ownership task_id user_id;
  let task := Task.set_is_completed (Some true) task in
  now ← utcnow;
  let task := Task.set_updated_at now task in
  add_flush_refresh task.

(** [uncomplete_task] *)
Definition uncomplete_task (task_id : Z) (user_id : string) : M Task.t :=
  task ← get_task_with_ownership task_id user_id;
  let task := Task.set_is_completed (Some false) task in
  now ← utcnow;
  let task := Task.set_updated_at now task in
  add_flush_refresh task.

(** ** Requests *)

(** A route whose body is bound to a schema: the framework checks the body,
    opens the session and calls the handler. *)
Definition route {A} (body : M unit) (handler : M A) : M A :=
  get_session (_ ← body; handler).

(** [POST /tasks] *)
Definition post_tasks (task_data : TaskCreate) (user_id : string) : M Task.t :=
  route (validate_TaskCreate task_data) (create_task task_data user_id).

(** [PATCH /tasks/{task_id}] *)
Definition patch_task (task_id : Z) (task_data : TaskUpdate) (user_id : string)
  : M Task.t :=
  route (validate_TaskUpdate task_data) (update_task task_id task_data user_id).

(** The six operations of the router. *)
Inductive Operation : Type :=
| Create (task_data : TaskCreate)
| ListAll
| Update (task_id : Z) (task_data : TaskUpdate)
| Delete (task_id : Z)
| Complete (task_id : Z)
| Uncomplete (task_id : Z).

Definition returning {A} (f : A -> list Task.t) (m : M A) : M (list Task.t) :=
  a ← m; mret (f a).

(** Run the handler of an operation for an identity, inside a session; the
    result lists the tasks of the response body. *)
Definition perform (op : Operation) (user_id : string) : M (list Task.t) :=
  get_session
    match op with
    | Create task_data => returning (fun x => [x]) (create_task task_data user_id)
    | ListAll => list_tasks user_id
    | Update task_id task_data =>
        returning (fun x => [x]) (update_task task_id task_data user_id)
    | Delete task_id => returning (fun _ => []) (delete_task task_id user_id)
    | Complete task_id => returning (fun x => [x]) (complete_task task_id user_id)
    | Uncomplete task_id => returning (fun x => [x]) (uncomplete_task task_id user_id)
    end.

(** ** Predicates of the statements *)

(** The table's key and NOT NULL constraints on one row, with the keys
    handed out so far below the sequence. *)
Definition row_ok (n : Z) (r : Task.t) : Prop :=
  match Task.id r with
  | Some i => i < n
  | None => False
  end
  /\ is_Some (Task.is_completed r).

#[global] Instance row_ok_dec n r : Decision (row_ok n r).
Proof. unfold row_ok. destruct (Task.id r); apply _. Defined.

(** A database the table definition allows: [id] is a primary key. *)
Definition db_wf (d : Db) : Prop :=
  NoDup (map Task.id (rows d)) /\ Forall (row_ok (next_id d)) (rows d).

#[global] Instance db_wf_dec d : Decision (db_wf d).
Proof. unfold db_wf. apply _. Defined.

(** The row the lookup of key [i] finds, if any; a key outside the
    column's range finds none. *)
Definition stored (w : World) (i : Z) : option Task.t :=
  if in_int32 i then List.find (has_id i) (rows (db w)) else None.

(** Task [i] is stored as [x] and belongs to [user_id]. *)
Definition owns (w : World) (user_id : string) (i : Z) (x : Task.t) : Prop :=
  stored w i = Some x /\ Task.user_id x = user_id.

(** What the handlers require of a title: something is left after [strip],
    and the string as sent has at most 200 characters. *)
Definition title_ok (s : string) : Prop :=
  PyStr.strip s <> "" /\ (PyStr.len s <= 200)%nat.

(** The spec's reading: both tests on the stripped title. *)
Definition title_ok_after_trim (s : string) : Prop :=
  PyStr.strip s <> "" /\ (PyStr.len (PyStr.strip s) <= 200)%nat.

(** The title of an update body is left out or acceptable. *)
Definition update_title_ok (d : TaskUpdate) : Prop :=
  match update_title d with
  | Unset => True
  | Given None => False
  | Given (Some s) => title_ok s
  end.

#[global] Instance title_ok_dec s : Decision (title_ok s).
Proof. unfold title_ok. apply _. Defined.

#[global] Instance update_title_ok_dec d : Decision (update_title_ok d).
Proof. unfold update_title_ok. destruct (update_title d) as [|[?|]]; apply _. Defined.

(** What the database needs to store a new task of [u]: no NUL in the
    identity, the title or the description, and a key left in the
    sequence. *)
Definition create_storable (w : World) (u s : string) (desc : option string) : Prop :=
  has_nul u = false /\ has_nul s = false /\ opt_has_nul desc = false
  /\ sequence_open (db w) = true.

(** No text value of the update body has a NUL. *)
Definition update_storable (d : TaskUpdate) : Prop :=
  match update_title d with
  | Given (Some s) => has_nul s = false
  | _ => True
  end
  /\ match update_description d with
     | Given o => opt_has_nul o = false
     | Unset => True
     end.

(** Newest first. *)
Definition newer_or_equal (a b : Task.t) : Prop :=
  Task.created_at b <= Task.created_at a.

(** The update body as the handler applies it: the title stripped. *)
Definition stripped (d : TaskUpdate) : TaskUpdate :=
  match update_title d with
  | Given (Some s) =>
      mkTaskUpdate (Given (Some (PyStr.strip s))) (update_description d)
                   (update_is_completed d)
  | _ => d
  end.

(** The database after the row of key [i] is overwritten with [x]. *)
Definition overwrite (i : Z) (x : Task.t) (d : Db) : Db :=
  mkDb (map (fun r => if has_id i r then x else r) (rows d)) (next_id d).

(** The world after one clock reading and the overwrite of row [i]. *)
Definition after_write (i : Z) (x : Task.t) (w : World) : World :=
  mkWorld (overwrite i x (db w)) (clock w) (S (ticks w)).

(** The task [create_task] builds in [w], and the world it leaves. *)
Definition created (w : World) (u s : string) (desc : option string) : Task.t :=
  Task.mk (Some (next_id (db w))) u (PyStr.strip s) desc (Some false)
          (clock w (ticks w)) (clock w (S (ticks w))).

Definition after_create (w : World) (x : Task.t) : World :=
  mkWorld (mkDb (rows (db w) ++ [x]) (next_id (db w) + 1)) (clock w)
          (S (S (ticks w))).

(** The rows that belong to identities other than [u]. *)
Definition others (u : string) (d : Db) : list Task.t :=
  List.filter (fun r => negb (owned_by u r)) (rows d).

(** What one request of identity [u] can do to the table: nothing, insert
    a row of [u] under the next key, overwrite a row of [u] with a row of
    [u] of the same key, or delete a row of [u]. *)
Inductive effect (u : string) (d : Db) : Db -> Prop :=
| effect_none : effect u d d
| effect_insert x :
    Task.id x = Some (next_id d) -> Task.user_id x = u ->
    is_Some (Task.is_completed x) ->
    effect u d (mkDb (rows d ++ [x]) (next_id d + 1))
| effect_overwrite i x x' :
    List.find (has_id i) (rows d) = Some x -> Task.user_id x = u ->
    Task.id x' = Some i -> Task.user_id x' = u ->
    is_Some (Task.is_completed x') ->
    effect u d (overwrite i x' d)
| effect_delete i x :
    List.find (has_id i) (rows d) = Some x -> Task.user_id x = u ->
    effect u d (mkDb (List.filter (fun r => negb (has_id i r)) (rows d)) (next_id d)).

(** Key [i] has been handed out, and every row under it belongs to [a]. *)
Definition key_of (a : string) (i : Z) (d : Db) : Prop :=
  i < next_id d /\ forall r, In r (rows d) -> Task.id r = Some i -> Task.user_id r = a.

(** A history of requests, each by some identity, run one after the
    other. *)
Fixpoint run (h : list (string * Operation)) (w : World) : World :=
  match h with
  | [] => w
  | (u, op) :: h' => run h' (perform op u w).2
  end.

(** ** Sample data *)

Definition clock_running : nat -> datetime := fun n => 1000 + Z.of_nat n.

Definition clock_still : nat -> datetime := fun _ => 1000.

Definition world_empty (c : nat -> datetime) : World := mkWorld (mkDb [] 1) c 0.

Definition task_milk : Task.t :=
  Task.mk (Some 1) "u1" "Buy milk" None (Some false) 1000 1001.

Definition world_milk : World := mkWorld (mkDb [task_milk] 2) clock_running 2.

Definition dev_settings : Settings :=
  mkSettings "development-secret-key-min-32-chars" "HS256".

(** A decoder for which every token verifies and carries the claims
    [{"sub": ""}]. *)
Definition decode_empty_subject
  : string -> string -> list string -> string + gmap string pyval :=
  fun _ _ _ => inr {[ "sub" := PyStr "" ]}.

(** A decoder for which every token verifies and carries the claims
    [{"sub": "u1"}]. *)
Definition decode_u1
  : string -> string -> list string -> string + gmap string pyval :=
  fun _ _ _ => inr {[ "sub" := PyStr "u1" ]}.

(** ["a"] followed by 200 spaces: 201 characters, one after [strip]. *)
Definition padded_title : string := String "a" (PyStr.repeat " " 200).

(** The title made of the one character NUL. *)
Definition nul_title : string := String Ascii.zero EmptyString.

Definition task_t1 : Task.t := Task.mk (Some 1) "u1" "one" None (Some false) 10 10.

Definition task_t2 : Task.t := Task.mk (Some 2) "u1" "two" None (Some true) 20 25.

Definition task_t3 : Task.t := Task.mk (Some 4) "u1" "three" None (Some false) 30 30.

Definition task_other : Task.t := Task.mk (Some 3) "u2" "other" None (Some false) 22 22.

(** Three tasks of ["u1"] created at 10 < 20 < 30, and one of ["u2"]. *)
Definition world_three : World :=
  mkWorld (mkDb [task_t2; task_t1; task_other; task_t3] 5) clock_running 0.

(** Two tasks ["u1"] creates while the clock reads 1000. *)
Definition tie_first : Task.t :=
  Task.mk (Some 1) "u1" "first" None (Some false) 1000 1000.

Definition tie_second : Task.t :=
  Task.mk (Some 2) "u1" "second" None (Some false) 1000 1000.

Definition world_ties : World :=
  (post_tasks (mkTaskCreate "second" None) "u1"
     (post_tasks (mkTaskCreate "first" None) "u1" (world_empty clock_still)).2).2.

(** The same two rows, met by the scan in the other order. *)
Definition world_ties_swapped : World :=
  mkWorld (mkDb [tie_second; tie_first] 3) clock_still 4.

(** ** Response schema ([TaskRead]) *)

(** Class [TaskRead], the body of a task response: the attributes of
    [TaskBase] and the four it adds; [user_id] is not one of them. *)
Record TaskRead : Type := mkTaskRead {
  read_title : string;
  read_description : option string;
  read_id : Z;
  read_is_completed : bool;
  read_created_at : datetime;
  read_updated_at : datetime
}.

(** [response_model=TaskRead]: the returned task is validated into the
    schema, which wants an [int] id, a [bool] flag and a title within the
    [Field] bounds; [None] is where the validation fails. *)
Definition render (x : Task.t) : option TaskRead :=
  match Task.id x, Task.is_completed x with
  | Some i, Some b =>
      if ((1 <=? PyStr.len (Task.title x)) && (PyStr.len (Task.title x) <=? 200))%nat
      then Some (mkTaskRead (Task.title x) (Task.description x) i b
                            (Task.created_at x) (Task.updated_at x))
      else None
  | _, _ => None
  end.

(** ** Steps, and what holds of the table at rest *)

(** What one request of identity [u] does to the world, in full: nothing
    but at most two clock readings; the insertion of the task [create_task]
    builds from an acceptable title; the overwrite of a row of [u] by a
    row with the same key, owner and creation time, a title that is the old
    one or a stripped acceptable one, and [updated_at] from the clock; or
    the deletion of a row of [u]. *)
Inductive step (u : string) (w : World) : World -> Prop :=
| step_idle w' :
    db w' = db w -> clock w' = clock w ->
    (ticks w <= ticks w' <= S (S (ticks w)))%nat ->
    step u w w'
| step_create s desc :
    title_ok s ->
    step u w (after_create w (created w u s desc))
| step_write i x y :
    owns w u i x ->
    Task.id y = Some i -> Task.user_id y = u ->
    Task.created_at y = Task.created_at x ->
    Task.updated_at y = Task.updated_at x ->
    (Task.title y = Task.title x
     \/ exists s, title_ok s /\ Task.title y = PyStr.strip s) ->
    is_Some (Task.is_completed y) ->
    step u w (after_write i (Task.set_updated_at (clock w (ticks w)) y) w)
| step_delete i x :
    owns w u i x ->
    step u w (with_db (mkDb (List.filter (fun r => negb (has_id i r)) (rows (db w)))
                            (next_id (db w))) w).

(** A title as the table holds it: nothing to strip, between 1 and 200
    characters. *)
Definition title_at_rest (t : string) : Prop :=
  PyStr.strip t = t /\ (1 <= PyStr.len t <= 200)%nat.

Definition titles_at_rest (d : Db) : Prop :=
  Forall (fun r => title_at_rest (Task.title r)) (rows d).

(** The wall clock never runs backwards. *)
Definition clock_monotone (w : World) : Prop :=
  forall n, clock w n <= clock w (S n).

(** No row was updated before it was created, nor after the clock's next
    reading. *)
Definition stamps_ordered (w : World) : Prop :=
  Forall (fun r => Task.created_at r <= Task.updated_at r
                   /\ Task.updated_at r <= clock w (ticks w))
         (rows (db w)).

(** No row has key [i], which has been handed out. *)
Definition key_retired (i : Z) (d : Db) : Prop :=
  i < next_id d /\ forall r, In r (rows d) -> Task.id r <> Some i.

(** The rows under key [i] have the owner and creation time of [x]. *)
Definition same_origin (i : Z) (x : Task.t) (d : Db) : Prop :=
  i < next_id d
  /\ forall r, In r (rows d) -> Task.id r = Some i ->
       Task.user_id r = Task.user_id x /\ Task.created_at r = Task.created_at x.

(** ** More sample data *)

Definition history_sample : list (string * Operation) :=
  [ ("u2", Create (mkTaskCreate "  Buy eggs " None));
    ("u1", Update 1 (mkTaskUpdate (Given (Some " Buy oat milk ")) Unset Unset));
    ("u1", Complete 1);
    ("u2", Delete 1) ].

(** The key an operation is aimed at. *)
Definition target (op : Operation) : option Z :=
  match op with
  | Update i _ | Delete i | Complete i | Uncomplete i => Some i
  | Create _ | ListAll => None
  end.

(** ** Outcomes *)

(** Every way the handler of an operation, run for identity [u] inside a
    session in world [w], can end: the response or the exception, and the
    world it leaves. *)
Inductive outcome (u : string) (w : World)
  : Operation -> (Exception + list Task.t) * World -> Prop :=
| create_rejected d e :
    ~ title_ok (create_title d) ->
    is_validation_failure e = true -> status_code e = 400 ->
    outcome u w (Create d) (inl e, w)
| create_refused d m :
    title_ok (create_title d) ->
    ~ create_storable w u (create_title d) (create_description d) ->
    outcome u w (Create d)
            (inl (DBAPIError m), mkWorld (db w) (clock w) (S (S (ticks w))))
| create_stored d :
    title_ok (create_title d) ->
    create_storable w u (create_title d) (create_description d) ->
    outcome u w (Create d)
            (inr [created w u (create_title d) (create_description d)],
             after_create w (created w u (create_title d) (create_description d)))
| listed :
    outcome u w ListAll
            (inr (order_by_created_at_desc (List.filter (owned_by u) (rows (db w)))), w)
| key_out_of_range op i :
    target op = Some i -> in_int32 i = false ->
    outcome u w op (inl (DBAPIError "value out of int32 range"), w)
| key_not_found op i :
    target op = Some i -> in_int32 i = true -> (forall x, ~ owns w u i x) ->
    outcome u w op (inl (NotFoundError "Task not found"), w)
| update_nothing i d x :
    owns w u i x -> update_data_empty d = true ->
    outcome u w (Update i d) (inr [x], w)
| update_rejected i d x e :
    owns w u i x -> update_data_empty d = false -> ~ update_title_ok d ->
    is_validation_failure e = true -> status_code e = 400 ->
    outcome u w (Update i d) (inl e, w)
| update_refused_nul i d x :
    owns w u i x -> update_data_empty d = false -> update_title_ok d ->
    sends_nul (Some x) (apply_update_data (stripped d) x) = true ->
    outcome u w (Update i d)
            (inl (DBAPIError "invalid byte sequence for encoding UTF8: 0x00"),
             mkWorld (db w) (clock w) (S (ticks w)))
| update_refused_null i d x :
    owns w u i x -> update_title_ok d ->
    sends_nul (Some x) (apply_update_data (stripped d) x) = false ->
    update_is_completed d = Given None ->
    outcome u w (Update i d)
            (inl (IntegrityError "is_completed"),
             mkWorld (db w) (clock w) (S (ticks w)))
| update_stored i d x :
    owns w u i x -> update_data_empty d = false -> update_title_ok d ->
    sends_nul (Some x) (apply_update_data (stripped d) x) = false ->
    update_is_completed d <> Given None ->
    outcome u w (Update i d)
            (inr [Task.set_updated_at (clock w (ticks w))
                    (apply_update_data (stripped d) x)],
             after_write i (Task.set_updated_at (clock w (ticks w))
                              (apply_update_data (stripped d) x)) w)
| deleted i x :
    owns w u i x ->
    outcome u w (Delete i)
            (inr [],
             with_db (mkDb (List.filter (fun r => negb (has_id i r)) (rows (db w)))
                           (next_id (db w))) w)
| completed i x :
    owns w u i x ->
    outcome u w (Complete i)
            (inr [Task.set_updated_at (clock w (ticks w))
                    (Task.set_is_completed (Some true) x)],
             after_write i (Task.set_updated_at (clock w (ticks w))
                              (Task.set_is_completed (Some true) x)) w)
| uncompleted i x :
    owns w u i x ->
    outcome u w (Uncomplete i)
            (inr [Task.set_updated_at (clock w (ticks w))
                    (Task.set_is_completed (Some false) x)],
             after_write i (Task.set_updated_at (clock w (ticks w))
                              (Task.set_is_completed (Some false) x)) w).

(** ** Requests through the routes *)

(** [Field(min_length=1, max_length=200)] as a test. *)
Definition title_field_ok (s : string) : bool :=
  ((1 <=? PyStr.len s) && (PyStr.len s <=? 200))%nat.

(** The request body of an operation passes its schema. *)
Definition body_ok (op : Operation) : bool :=
  match op with
  | Create task_data => title_field_ok (create_title task_data)
  | Update _ task_data =>
      match update_title task_data with
      | Given (Some s) => title_field_ok s
      | _ => true
      end
  | _ => true
  end.

(** An operation as the router serves it: the two routes with a body check
    it before the handler is called. *)
Definition request (op : Operation) (user_id : string) : M (list Task.t) :=
  match op with
  | Create task_data => returning (fun x => [x]) (post_tasks task_data user_id)
  | Update task_id task_data =>
      returning (fun x => [x]) (patch_task task_id task_data user_id)
  | _ => perform op user_id
  end.

(** * Properties *)

(** ** Strings *)

Lemma len_lstrip s : (PyStr.len (PyStr.lstrip s) <= PyStr.len s)%nat.
Proof.
  unfold PyStr.len. induction s as [|c r IH]; simpl; [lia|].
  destruct (PyStr.isspace c); simpl; lia.
Qed.

Lemma len_rstrip s : (PyStr.len (PyStr.rstrip s) <= PyStr.len s)%nat.
Proof.
  unfold PyStr.len. induction s as [|c r IH]; simpl; [lia|].
  destruct (PyStr.rstrip r) as [|c' r'] eqn:E.
  - destruct (PyStr.isspace c); simpl; lia.
  - simpl in *. lia.
Qed.

Lemma len_strip s : (PyStr.len (PyStr.strip s) <= PyStr.len s)%nat.
Proof.
  unfold PyStr.strip. etransitivity; [apply len_rstrip | apply len_lstrip].
Qed.

Lemma truthy_nonempty s : PyStr.truthy s = true <-> s <> "".
Proof. destruct s; simpl; split; intros; congruence. Qed.

(** The handler's first test fails exactly when something is left after
    [strip]. *)
Lemma title_missing_false s : title_missing s = false <-> PyStr.strip s <> "".
Proof.
  unfold title_missing. rewrite orb_false_iff, !negb_false_iff, !truthy_nonempty.
  split; [tauto|]. intros H. split; [|exact H].
  intros ->. now apply H.
Qed.

Lemma title_missing_true s : title_missing s = true <-> PyStr.strip s = "".
Proof.
  destruct (title_missing s) eqn:E.
  - split; [|reflexivity]. intros _.
    destruct (decide (PyStr.strip s = "")) as [|n]; [assumption|].
    apply title_missing_false in n. congruence.
  - apply title_missing_false in E. split; [discriminate | tauto].
Qed.

Lemma title_ok_spec s :
  title_ok s <-> title_missing s = false /\ (200 <? PyStr.len s)%nat = false.
Proof.
  unfold title_ok. rewrite title_missing_false, Nat.ltb_ge. reflexivity.
Qed.

(** A title the handlers accept also passes the schema. *)
Lemma title_ok_len s : title_ok s -> (1 <= PyStr.len s <= 200)%nat.
Proof.
  intros [Hne Hle]. split; [|exact Hle].
  pose proof (len_strip s) as Hs.
  destruct (PyStr.strip s) eqn:E; [congruence|].
  unfold PyStr.len in *. simpl in Hs. lia.
Qed.

(** The title a handler stores fits the column: [String(200)] and the
    check [length(title) >= 1]. *)
Lemma stored_title_fits s :
  title_ok s -> (1 <= PyStr.len (PyStr.strip s) <= 200)%nat.
Proof.
  intros [Hne Hle]. pose proof (len_strip s) as Hs. split; [|lia].
  destruct (PyStr.strip s); [congruence | unfold PyStr.len; simpl; lia].
Qed.

(** ** Rows and keys *)

Lemma has_id_true i x : has_id i x = true <-> Task.id x = Some i.
Proof. unfold has_id. apply bool_decide_eq_true. Qed.

Lemma find_has_id i l x :
  List.find (has_id i) l = Some x -> In x l /\ Task.id x = Some i.
Proof.
  intros H. apply find_some in H as [Hin Hid]. now apply has_id_true in Hid.
Qed.

Lemma NoDup_map_inj {A B} (f : A -> B) (l : list A) x y :
  NoDup (map f l) -> In x l -> In y l -> f x = f y -> x = y.
Proof.
  induction l as [|a l IH]; simpl; [tauto|].
  intros Hnd Hx Hy Hxy. apply NoDup_cons in Hnd as [Hnotin Hnd].
  destruct Hx as [->|Hx], Hy as [->|Hy]; auto.
  - exfalso. apply Hnotin. rewrite Hxy. apply list_elem_of_In, in_map; assumption.
  - exfalso. apply Hnotin. rewrite <- Hxy. apply list_elem_of_In, in_map; assumption.
Qed.

(** Under the primary key, the row found for a key is the only row with
    that key. *)
Lemma key_unique d i x r :
  db_wf d -> List.find (has_id i) (rows d) = Some x ->
  In r (rows d) -> has_id i r = true -> r = x.
Proof.
  intros [Hnd _] Hf Hin Hid. apply find_has_id in Hf as [Hx Hxi].
  apply has_id_true in Hid.
  apply (NoDup_map_inj Task.id (rows d)); congruence.
Qed.

Lemma find_in_wf d i x :
  db_wf d -> In x (rows d) -> Task.id x = Some i ->
  List.find (has_id i) (rows d) = Some x.
Proof.
  intros Hwf Hin Hid.
  destruct (List.find (has_id i) (rows d)) as [y|] eqn:E.
  - f_equal. symmetry. eapply key_unique; eauto. now apply has_id_true.
  - exfalso. pose proof (find_none _ _ E x Hin) as Hn.
    apply has_id_true in Hid. congruence.
Qed.

(** ** The ownership guard *)

Lemma stored_find w i x :
  stored w i = Some x ->
  in_int32 i = true /\ List.find (has_id i) (rows (db w)) = Some x.
Proof. unfold stored. destruct (in_int32 i); [auto | discriminate]. Qed.

Lemma stored_in_range w i :
  in_int32 i = true -> stored w i = List.find (has_id i) (rows (db w)).
Proof. unfold stored. now intros ->. Qed.

Lemma stored_has_id w i x : stored w i = Some x -> In x (rows (db w)) /\ Task.id x = Some i.
Proof. intros H. apply stored_find in H as [_ H]. now apply find_has_id in H. Qed.

Lemma owns_in_range w u i x : owns w u i x -> in_int32 i = true.
Proof. intros [H _]. now apply stored_find in H. Qed.

Lemma owns_find w u i x : owns w u i x -> List.find (has_id i) (rows (db w)) = Some x.
Proof. intros [H _]. now apply stored_find in H. Qed.

Lemma stored_in_wf w i x :
  db_wf (db w) -> in_int32 i = true -> In x (rows (db w)) -> Task.id x = Some i ->
  stored w i = Some x.
Proof. intros Hwf Hr Hin Hid. rewrite (stored_in_range w i Hr). now apply find_in_wf. Qed.

Lemma guard_eq i u w :
  get_task_with_ownership i u w =
  (if in_int32 i
   then match stored w i with
        | Some x => if String.eqb (Task.user_id x) u then inr x
                    else inl (NotFoundError "Task not found")
        | None => inl (NotFoundError "Task not found")
        end
   else inl (DBAPIError "value out of int32 range"), w).
Proof.
  unfold get_task_with_ownership, select_by_id_first, stored, get_db, raise,
    mbind, M_bind, mret, M_ret.
  destruct (in_int32 i); [|reflexivity]. simpl.
  destruct (List.find (has_id i) (rows (db w))) as [x|]; [|reflexivity].
  destruct (String.eqb (Task.user_id x) u); reflexivity.
Qed.

Lemma guard_owned i u w x :
  owns w u i x -> get_task_with_ownership i u w = (inr x, w).
Proof.
  intros Ho. pose proof (owns_in_range _ _ _ _ Ho) as Hr. destruct Ho as [Hs Hu].
  rewrite guard_eq, Hr, Hs. apply String.eqb_eq in Hu. now rewrite Hu.
Qed.

Lemma guard_foreign i u w x :
  stored w i = Some x -> Task.user_id x <> u ->
  get_task_with_ownership i u w = (inl (NotFoundError "Task not found"), w).
Proof.
  intros Hs Hu. rewrite guard_eq, (proj1 (stored_find _ _ _ Hs)), Hs.
  apply String.eqb_neq in Hu. now rewrite Hu.
Qed.

Lemma guard_absent i u w :
  in_int32 i = true -> stored w i = None ->
  get_task_with_ownership i u w = (inl (NotFoundError "Task not found"), w).
Proof. intros Hr Hs. now rewrite guard_eq, Hr, Hs. Qed.

Lemma guard_out_of_range i u w :
  in_int32 i = false ->
  get_task_with_ownership i u w = (inl (DBAPIError "value out of int32 range"), w).
Proof. intros Hr. now rewrite guard_eq, Hr. Qed.

(** Whatever the guard returns is the stored row of the key, owned by the
    caller; it raises the one not-found error for a key within the
    column's range, and the driver's error for a key outside it. *)
Lemma guard_cases i u w :
  (exists x, owns w u i x /\ get_task_with_ownership i u w = (inr x, w))
  \/ (in_int32 i = true
      /\ get_task_with_ownership i u w = (inl (NotFoundError "Task not found"), w))
  \/ (in_int32 i = false
      /\ get_task_with_ownership i u w
         = (inl (DBAPIError "value out of int32 range"), w)).
Proof.
  rewrite guard_eq. destruct (in_int32 i) eqn:Hr; [|right; right; now split].
  destruct (stored w i) as [x|] eqn:E; [|right; left; now split].
  destruct (String.eqb (Task.user_id x) u) eqn:Eu; [|right; left; now split].
  left. exists x. split; [|reflexivity]. split; [assumption|].
  now apply String.eqb_eq.
Qed.

(** Either the guard returns the caller's row, or it raises and leaves
    the world as it is. *)
Lemma guard_returns_or_raises i u w :
  (exists x, owns w u i x /\ get_task_with_ownership i u w = (inr x, w))
  \/ exists e, get_task_with_ownership i u w = (inl e, w).
Proof.
  destruct (guard_cases i u w) as [H|[[_ E]|[_ E]]]; [now left | right; eauto ..].
Qed.

(** For every key within the range of the column, the guard answers a key
    that is not stored and a key stored for another identity with the same
    value, the 404 error [NotFoundError "Task not found"], leaves the world
    as it was, and raises nothing else. *)
Lemma guard_in_range (w1 w2 : World) (i : Z) (u : string) (x : Task.t) :
  in_int32 i = true ->
  stored w1 i = None ->
  stored w2 i = Some x -> Task.user_id x <> u ->
  get_task_with_ownership i u w1 = (inl (NotFoundError "Task not found"), w1)
  /\ get_task_with_ownership i u w2 = (inl (NotFoundError "Task not found"), w2)
  /\ forall w e,
       (get_task_with_ownership i u w).1 = inl e ->
       e = NotFoundError "Task not found"
       /\ status_code e = 404 /\ error_code e = Some "NOT_FOUND".
Proof.
  intros Hr Habsent Hstored Hforeign.
  rewrite (guard_absent _ _ _ Hr Habsent), (guard_foreign _ _ _ _ Hstored Hforeign).
  split_and!; try reflexivity. intros w e H.
  destruct (guard_cases i u w) as [(y & _ & E)|[[_ E]|[Hn _]]]; [| |congruence];
    rewrite E in H; simpl in H; try discriminate.
  injection H as <-. split_and!; reflexivity.
Qed.

(** C2, at the input where the code departs from it: no task has key
    2147483648, yet the guard does not answer with the not-found error.
    The key does not fit the [Integer] column of the lookup, the statement
    is refused, and the guard ends with the driver's error, status 500;
    so do the four operations that start with the guard, and nothing is
    changed. *)
Theorem guard_key_out_of_range :
  List.find (has_id 2147483648) (rows (db world_milk)) = None
  /\ get_task_with_ownership 2147483648 "u1" world_milk
     = (inl (DBAPIError "value out of int32 range"), world_milk)
  /\ status_code (DBAPIError "value out of int32 range") = 500
  /\ DBAPIError "value out of int32 range" <> NotFoundError "Task not found"
  /\ get_session (complete_task 2147483648 "u1") world_milk
     = (inl (DBAPIError "value out of int32 range"), world_milk)
  /\ get_session (uncomplete_task 2147483648 "u1") world_milk
     = (inl (DBAPIError "value out of int32 range"), world_milk)
  /\ get_session (delete_task 2147483648 "u1") world_milk
     = (inl (DBAPIError "value out of int32 range"), world_milk)
  /\ get_session (update_task 2147483648 (mkTaskUpdate Unset Unset (Given (Some true))) "u1")
       world_milk
     = (inl (DBAPIError "value out of int32 range"), world_milk)
  /\ get_task_with_ownership 2147483647 "u1" world_milk
     = (inl (NotFoundError "Task not found"), world_milk).
Proof. split_and!; try reflexivity. discriminate. Qed.

(** ** The token verifier *)

Lemma token_decode_failure jwt_decode settings token e :
  jwt_decode token (BETTER_AUTH_SECRET settings) [JWT_ALGORITHM settings] = inl e ->
  get_current_user_id jwt_decode settings token
  = inl (AuthenticationError ("Invalid token: " ++ e)).
Proof. intros H. unfold get_current_user_id. now rewrite H. Qed.

(** C3, as the code has it: for a token that verifies, a subject claim
    that is absent or [None] ends in the authentication failure
    "Token missing user identifier"; any other subject claim, the empty
    string included, is returned as the identity, and nothing else is. *)
Theorem subject_claim_required jwt_decode settings token payload :
  jwt_decode token (BETTER_AUTH_SECRET settings) [JWT_ALGORITHM settings] = inr payload ->
  (payload !! "sub" = None \/ payload !! "sub" = Some PyNone ->
   get_current_user_id jwt_decode settings token
   = inl (AuthenticationError "Token missing user identifier"))
  /\ (forall v, payload !! "sub" = Some v -> v <> PyNone ->
        get_current_user_id jwt_decode settings token = inr v)
  /\ (forall v, get_current_user_id jwt_decode settings token = inr v ->
        payload !! "sub" = Some v /\ v <> PyNone).
Proof.
  intros Hd. unfold get_current_user_id, dict_get. rewrite Hd.
  repeat split.
  - intros [-> | ->]; reflexivity.
  - intros v -> Hv. destruct v; simpl; congruence.
  - destruct (payload !! "sub") as [[| |]|]; simpl in *; congruence.
  - destruct (payload !! "sub") as [[| |]|]; simpl in *; congruence.
Qed.

Lemma subject_claim_required_witness :
  get_current_user_id decode_u1 dev_settings "token" = inr (PyStr "u1").
Proof.
  destruct (subject_claim_required decode_u1 dev_settings "token"
              {[ "sub" := PyStr "u1" ]} eq_refl) as (_ & H & _).
  apply H; [reflexivity | discriminate].
Defined.

(** C3 as stated fails: a token that verifies with the subject claim [""]
    is given the identity [""], not an authentication failure. *)
Lemma empty_subject_is_identity :
  decode_empty_subject "token" (BETTER_AUTH_SECRET dev_settings)
                       [JWT_ALGORITHM dev_settings]
  = inr {[ "sub" := PyStr "" ]}
  /\ ({[ "sub" := PyStr "" ]} : gmap string pyval) !! "sub" = Some (PyStr "")
  /\ get_current_user_id decode_empty_subject dev_settings "token" = inr (PyStr "")
  /\ forall detail,
       get_current_user_id decode_empty_subject dev_settings "token"
       <> inl (AuthenticationError detail).
Proof.
  repeat split; try reflexivity. intros detail. discriminate.
Qed.

(** ** What each handler computes *)

Ltac unfold_monad :=
  unfold add_flush_refresh, delete_flush, select_by_user_ordered, utcnow,
    get_db, put_db, raise, with_db, mbind, M_bind, mret, M_ret; simpl.

Lemma session_ok {A} (m : M A) w a w' :
  m w = (inr a, w') -> get_session m w = (inr a, w').
Proof. intros H. unfold get_session. now rewrite H. Qed.

Lemma session_raise {A} (m : M A) w e w' :
  m w = (inl e, w') -> get_session m w = (inl e, with_db (db w) w').
Proof. intros H. unfold get_session. now rewrite H. Qed.

Lemma with_db_same w : with_db (db w) w = w.
Proof. now destruct w. Qed.

Lemma bind_guard_owned {A} i u w x (k : Task.t -> M A) :
  owns w u i x -> (get_task_with_ownership i u ≫= k) w = k x w.
Proof.
  intros H. unfold mbind, M_bind. now rewrite (guard_owned _ _ _ _ H).
Qed.

Lemma bind_guard_raise {A} i u w e (k : Task.t -> M A) :
  get_task_with_ownership i u w = (inl e, w) ->
  (get_task_with_ownership i u ≫= k) w = (inl e, w).
Proof. intros H. unfold mbind, M_bind. now rewrite H. Qed.

Lemma owns_id w u i x : owns w u i x -> Task.id x = Some i.
Proof. intros [H _]. now apply stored_has_id in H. Qed.

(** White space is not NUL, so [strip] keeps and adds none. *)
Lemma isspace_not_nul c : PyStr.isspace c = true -> (nat_of_ascii c =? 0)%nat = false.
Proof.
  unfold PyStr.isspace. destruct (Nat.eqb_spec (nat_of_ascii c) 0) as [->|]; [|reflexivity].
  simpl. discriminate.
Qed.

Lemma has_nul_lstrip s : has_nul (PyStr.lstrip s) = has_nul s.
Proof.
  induction s as [|c r IH]; simpl; [reflexivity|].
  destruct (PyStr.isspace c) eqn:E; [|reflexivity].
  now rewrite IH, (isspace_not_nul c E).
Qed.

Lemma has_nul_rstrip s : has_nul (PyStr.rstrip s) = has_nul s.
Proof.
  induction s as [|c r IH]; simpl; [reflexivity|].
  destruct (PyStr.rstrip r) as [|c' r'] eqn:E.
  - rewrite <- IH. simpl. destruct (PyStr.isspace c) eqn:Ec; simpl.
    + now rewrite (isspace_not_nul c Ec).
    + now rewrite orb_false_r.
  - simpl in *. now rewrite IH.
Qed.

Lemma has_nul_strip s : has_nul (PyStr.strip s) = has_nul s.
Proof. unfold PyStr.strip. now rewrite has_nul_rstrip, has_nul_lstrip. Qed.

#[global] Instance create_storable_dec w u s desc : Decision (create_storable w u s desc).
Proof. unfold create_storable. apply _. Defined.

#[global] Instance update_storable_dec d : Decision (update_storable d).
Proof.
  unfold update_storable.
  destruct (update_title d) as [|[?|]], (update_description d); apply _.
Defined.

Lemma create_sends_nul w u s desc :
  sends_nul None (Task.mk None u (PyStr.strip s) desc (Some false)
                    (clock w (ticks w)) (clock w (S (ticks w))))
  = has_nul u || has_nul s || opt_has_nul desc.
Proof. simpl. now rewrite has_nul_strip. Qed.

(** The three ways [create_task] ends: the title is refused; the title is
    accepted and the database refuses the row; the task is stored. *)
Lemma create_task_ok s desc u w :
  title_ok s -> create_storable w u s desc ->
  create_task (mkTaskCreate s desc) u w
  = (inr (created w u s desc), after_create w (created w u s desc)).
Proof.
  intros H (Hu & Hs & Hd & Hq). apply title_ok_spec in H as [H1 H2].
  unfold create_task. simpl. rewrite H1, H2.
  unfold utcnow, add_flush_refresh, get_db, put_db, raise, with_db,
    mbind, M_bind, mret, M_ret.
  cbn [Task.id db clock ticks]. rewrite create_sends_nul, Hu, Hs, Hd, Hq.
  reflexivity.
Qed.

Lemma create_task_refused s desc u w :
  title_ok s -> ~ create_storable w u s desc ->
  exists m, create_task (mkTaskCreate s desc) u w
            = (inl (DBAPIError m), mkWorld (db w) (clock w) (S (S (ticks w)))).
Proof.
  intros H Hn. apply title_ok_spec in H as [H1 H2].
  unfold create_task. simpl. rewrite H1, H2.
  unfold utcnow, add_flush_refresh, get_db, put_db, raise, with_db,
    mbind, M_bind, mret, M_ret.
  cbn [Task.id db clock ticks]. rewrite create_sends_nul.
  destruct (has_nul u || has_nul s || opt_has_nul desc) eqn:E; [eauto|].
  destruct (sequence_open (db w)) eqn:Eq; [|simpl; eauto].
  exfalso. apply Hn. apply orb_false_iff in E as [E Hd].
  apply orb_false_iff in E as [Hu Hs]. now split_and!.
Qed.

Lemma create_task_rejected s desc u w :
  ~ title_ok s ->
  exists e, create_task (mkTaskCreate s desc) u w = (inl e, w)
            /\ is_validation_failure e = true /\ status_code e = 400.
Proof.
  intros H. unfold create_task. simpl.
  destruct (title_missing s) eqn:E1; [eexists; repeat split|].
  destruct (200 <? PyStr.len s)%nat eqn:E2; [eexists; repeat split|].
  exfalso. apply H, title_ok_spec. now split.
Qed.

Lemma validate_update_title_ok d w :
  update_title_ok d -> validate_update_title d w = (inr (stripped d), w).
Proof.
  unfold update_title_ok, validate_update_title, stripped.
  destruct (update_title d) as [|[s|]]; [reflexivity| |tauto].
  intros H. apply title_ok_spec in H as [-> ->]. reflexivity.
Qed.

Lemma validate_update_title_rejected d w :
  ~ update_title_ok d ->
  exists e, validate_update_title d w = (inl e, w)
            /\ is_validation_failure e = true /\ status_code e = 400.
Proof.
  unfold update_title_ok, validate_update_title.
  destruct (update_title d) as [|[s|]]; [tauto| |eexists; repeat split].
  intros H.
  destruct (title_missing s) eqn:E1; [eexists; repeat split|].
  destruct (200 <? PyStr.len s)%nat eqn:E2; [eexists; repeat split|].
  exfalso. apply H, title_ok_spec. now split.
Qed.

Lemma update_task_noop i d u w x :
  owns w u i x -> update_data_empty d = true ->
  update_task i d u w = (inr x, w).
Proof.
  intros Ho He. unfold update_task. rewrite (bind_guard_owned _ _ _ _ _ Ho), He.
  reflexivity.
Qed.

Lemma update_task_rejected i d u w x :
  owns w u i x -> update_data_empty d = false -> ~ update_title_ok d ->
  exists e, update_task i d u w = (inl e, w)
            /\ is_validation_failure e = true /\ status_code e = 400.
Proof.
  intros Ho He Hbad. unfold update_task.
  rewrite (bind_guard_owned _ _ _ _ _ Ho), He.
  destruct (validate_update_title_rejected d w Hbad) as (e & E & Hv & Hs).
  exists e. unfold mbind, M_bind. rewrite E. auto.
Qed.

(** The attributes an update leaves alone. *)
Lemma apply_update_data_fixed d x :
  Task.id (apply_update_data d x) = Task.id x
  /\ Task.user_id (apply_update_data d x) = Task.user_id x
  /\ Task.created_at (apply_update_data d x) = Task.created_at x
  /\ Task.updated_at (apply_update_data d x) = Task.updated_at x.
Proof.
  unfold apply_update_data.
  destruct (update_title d) as [|[?|]], (update_description d),
    (update_is_completed d); repeat split.
Qed.

Lemma apply_update_data_completed d x :
  Task.is_completed (apply_update_data d x)
  = match update_is_completed d with
    | Given v => v
    | Unset => Task.is_completed x
    end.
Proof.
  unfold apply_update_data.
  destruct (update_title d) as [|[?|]], (update_description d),
    (update_is_completed d); reflexivity.
Qed.

Lemma stripped_fields d :
  update_description (stripped d) = update_description d
  /\ update_is_completed (stripped d) = update_is_completed d.
Proof. unfold stripped. destruct (update_title d) as [|[?|]]; split; reflexivity. Qed.

(** The end of every write: one clock reading for [updated_at], then the
    flush of the changed row [y] of key [i], loaded as [x]. *)
Lemma stamp_and_flush y i x w :
  List.find (has_id i) (rows (db w)) = Some x -> Task.id y = Some i ->
  (now ← utcnow; add_flush_refresh (Task.set_updated_at now y)) w
  = if sends_nul (Some x) y
    then (inl (DBAPIError "invalid byte sequence for encoding UTF8: 0x00"),
          mkWorld (db w) (clock w) (S (ticks w)))
    else match Task.is_completed y with
         | None => (inl (IntegrityError "is_completed"),
                    mkWorld (db w) (clock w) (S (ticks w)))
         | Some _ =>
             (inr (Task.set_updated_at (clock w (ticks w)) y),
              after_write i (Task.set_updated_at (clock w (ticks w)) y) w)
         end.
Proof.
  intros Hf Hid.
  unfold utcnow, add_flush_refresh, get_db, put_db, raise, with_db,
    mbind, M_bind, mret, M_ret.
  cbn [Task.id Task.set_updated_at db clock ticks Task.is_completed]. rewrite Hid, Hf.
  change (sends_nul (Some x) (Task.set_updated_at (clock w (ticks w)) y))
    with (sends_nul (Some x) y).
  destruct (sends_nul (Some x) y); [reflexivity|].
  destruct (Task.is_completed y); reflexivity.
Qed.

(** A row that keeps its text attributes sends none. *)
Lemma sends_nul_same_text x y :
  Task.user_id y = Task.user_id x -> Task.title y = Task.title x ->
  Task.description y = Task.description x ->
  sends_nul (Some x) y = false.
Proof.
  intros Hu Ht Hd. unfold sends_nul. rewrite Hu, Ht, Hd, !String.eqb_refl.
  rewrite bool_decide_eq_true_2 by reflexivity. reflexivity.
Qed.

Lemma title_of_apply d x :
  Task.title (apply_update_data (stripped d) x)
  = match update_title d with
    | Given (Some s) => PyStr.strip s
    | _ => Task.title x
    end.
Proof.
  destruct d as [[|[s|]] [|de] [|co]]; reflexivity.
Qed.

Lemma description_of_apply d x :
  Task.description (apply_update_data (stripped d) x)
  = match update_description d with
    | Given o => o
    | Unset => Task.description x
    end.
Proof.
  destruct d as [[|[s|]] [|de] [|co]]; reflexivity.
Qed.

(** What an update sends: the stripped title if it is new, the
    description if it is new. *)
Lemma sends_nul_apply d x :
  sends_nul (Some x) (apply_update_data (stripped d) x)
  = match update_title d with
    | Given (Some s) => negb (String.eqb (PyStr.strip s) (Task.title x)) && has_nul s
    | _ => false
    end
    || match update_description d with
       | Given o => negb (bool_decide (o = Task.description x)) && opt_has_nul o
       | Unset => false
       end.
Proof.
  unfold sends_nul.
  rewrite (proj1 (proj2 (apply_update_data_fixed (stripped d) x))), String.eqb_refl.
  rewrite title_of_apply, description_of_apply. cbn [negb andb orb].
  f_equal.
  - destruct (update_title d) as [|[s|]].
    + now rewrite String.eqb_refl.
    + now rewrite has_nul_strip.
    + now rewrite String.eqb_refl.
  - destruct (update_description d) as [|o]; [|reflexivity].
    now rewrite bool_decide_eq_true_2.
Qed.

(** An update body without NUL sends none, whatever the loaded row. *)
Lemma sends_nul_update d x :
  update_storable d -> sends_nul (Some x) (apply_update_data (stripped d) x) = false.
Proof.
  intros [Ht Hd]. rewrite sends_nul_apply.
  destruct (update_title d) as [|[s|]], (update_description d) as [|o];
    rewrite ?Ht, ?Hd, ?andb_false_r; reflexivity.
Qed.

(** [update_task] on an owned task, once the body is not empty and the
    title is acceptable: the stamp and the flush of the changed row. *)
Lemma update_task_flush i d u w x :
  owns w u i x -> update_data_empty d = false -> update_title_ok d ->
  update_task i d u w
  = (now ← utcnow;
     add_flush_refresh (Task.set_updated_at now (apply_update_data (stripped d) x))) w.
Proof.
  intros Ho He Hok. unfold update_task.
  rewrite (bind_guard_owned _ _ _ _ _ Ho), He.
  unfold mbind at 1, M_bind at 1. rewrite (validate_update_title_ok _ _ Hok).
  reflexivity.
Qed.

Lemma apply_update_data_id i d u w x :
  owns w u i x -> Task.id (apply_update_data (stripped d) x) = Some i.
Proof.
  intros Ho. rewrite (proj1 (apply_update_data_fixed (stripped d) x)).
  apply (owns_id _ _ _ _ Ho).
Qed.

(** An accepted update: the provided attributes are applied, [updated_at]
    takes the clock's reading and the row is overwritten. *)
Lemma update_task_ok i d u w x :
  owns w u i x -> update_data_empty d = false -> update_title_ok d ->
  sends_nul (Some x) (apply_update_data (stripped d) x) = false ->
  is_Some (Task.is_completed (apply_update_data (stripped d) x)) ->
  let x' := Task.set_updated_at (clock w (ticks w)) (apply_update_data (stripped d) x) in
  update_task i d u w = (inr x', after_write i x' w).
Proof.
  intros Ho He Hok Hn [b Hb]. simpl.
  rewrite (update_task_flush i d u w x Ho He Hok).
  rewrite (stamp_and_flush _ i x w (owns_find _ _ _ _ Ho) (apply_update_data_id i d u w x Ho)).
  now rewrite Hn, Hb.
Qed.

(** An update that sends a NUL is refused by the server. *)
Lemma update_task_nul i d u w x :
  owns w u i x -> update_data_empty d = false -> update_title_ok d ->
  sends_nul (Some x) (apply_update_data (stripped d) x) = true ->
  update_task i d u w
  = (inl (DBAPIError "invalid byte sequence for encoding UTF8: 0x00"),
     mkWorld (db w) (clock w) (S (ticks w))).
Proof.
  intros Ho He Hok Hn.
  rewrite (update_task_flush i d u w x Ho He Hok).
  rewrite (stamp_and_flush _ i x w (owns_find _ _ _ _ Ho) (apply_update_data_id i d u w x Ho)).
  now rewrite Hn.
Qed.

(** An update that would store NULL in [is_completed] is refused by the
    table when the session flushes. *)
Lemma update_task_null_flag i d u w x :
  owns w u i x -> update_title_ok d -> update_is_completed d = Given None ->
  sends_nul (Some x) (apply_update_data (stripped d) x) = false ->
  update_task i d u w
  = (inl (IntegrityError "is_completed"), mkWorld (db w) (clock w) (S (ticks w))).
Proof.
  intros Ho Hok Hn Hs.
  assert (update_data_empty d = false) as He.
  { unfold update_data_empty. rewrite Hn. simpl. now rewrite !andb_false_r. }
  rewrite (update_task_flush i d u w x Ho He Hok).
  rewrite (stamp_and_flush _ i x w (owns_find _ _ _ _ Ho) (apply_update_data_id i d u w x Ho)).
  rewrite Hs, apply_update_data_completed, (proj2 (stripped_fields d)), Hn.
  reflexivity.
Qed.

(** Both completion toggles: the flag is set, [updated_at] takes the
    clock's reading and the row is overwritten. *)
Lemma complete_task_ok i u w x :
  owns w u i x ->
  let x' := Task.set_updated_at (clock w (ticks w))
              (Task.set_is_completed (Some true) x) in
  complete_task i u w = (inr x', after_write i x' w).
Proof.
  intros Ho. simpl. unfold complete_task.
  rewrite (bind_guard_owned _ _ _ _ _ Ho). cbv zeta.
  rewrite (stamp_and_flush (Task.set_is_completed (Some true) x) i x w
             (owns_find _ _ _ _ Ho) (owns_id _ _ _ _ Ho)).
  now rewrite (sends_nul_same_text x (Task.set_is_completed (Some true) x)).
Qed.

Lemma uncomplete_task_ok i u w x :
  owns w u i x ->
  let x' := Task.set_updated_at (clock w (ticks w))
              (Task.set_is_completed (Some false) x) in
  uncomplete_task i u w = (inr x', after_write i x' w).
Proof.
  intros Ho. simpl. unfold uncomplete_task.
  rewrite (bind_guard_owned _ _ _ _ _ Ho). cbv zeta.
  rewrite (stamp_and_flush (Task.set_is_completed (Some false) x) i x w
             (owns_find _ _ _ _ Ho) (owns_id _ _ _ _ Ho)).
  now rewrite (sends_nul_same_text x (Task.set_is_completed (Some false) x)).
Qed.

Lemma delete_task_ok i u w x :
  owns w u i x ->
  delete_task i u w
  = (inr tt,
     with_db (mkDb (List.filter (fun r => negb (has_id i r)) (rows (db w)))
                   (next_id (db w))) w).
Proof.
  intros Ho. unfold delete_task.
  rewrite (bind_guard_owned _ _ _ _ _ Ho). unfold_monad.
  rewrite (owns_id _ _ _ _ Ho). reflexivity.
Qed.

(** The row a write stores is the row the key then leads to. *)
Lemma stored_after_write i x x' w :
  stored w i = Some x -> Task.id x' = Some i -> stored (after_write i x' w) i = Some x'.
Proof.
  intros Hs Hid. apply stored_find in Hs as [Hr Hf].
  rewrite (stored_in_range _ i Hr). unfold after_write, overwrite. simpl.
  apply has_id_true in Hid.
  induction (rows (db w)) as [|r l IH]; simpl in *; [discriminate|].
  destruct (has_id i r) eqn:E.
  - now rewrite Hid.
  - rewrite E. auto.
Qed.

(** ** Schema check and routes *)

Lemma check_title_field_cases s w :
  ((1 <= PyStr.len s <= 200)%nat /\ check_title_field s w = (inr tt, w))
  \/ (~ (1 <= PyStr.len s <= 200)%nat
      /\ exists c, check_title_field s w = (inl (RequestValidationError "title" c), w)).
Proof.
  unfold check_title_field.
  destruct (PyStr.len s <? 1)%nat eqn:E1.
  - right. apply Nat.ltb_lt in E1. split; [lia | eexists; reflexivity].
  - apply Nat.ltb_ge in E1. destruct (200 <? PyStr.len s)%nat eqn:E2.
    + right. apply Nat.ltb_lt in E2. split; [lia | eexists; reflexivity].
    + left. apply Nat.ltb_ge in E2. split; [lia | reflexivity].
Qed.

Lemma route_passes {A} (body : M unit) (h : M A) w :
  body w = (inr tt, w) -> route body h w = get_session h w.
Proof.
  intros H. unfold route, get_session, mbind, M_bind. now rewrite H.
Qed.

Lemma route_refuses {A} (body : M unit) (h : M A) w e :
  body w = (inl e, w) -> route body h w = (inl e, w).
Proof.
  intros H. unfold route, get_session, mbind, M_bind. rewrite H.
  now rewrite with_db_same.
Qed.

Lemma post_tasks_passes s desc u w :
  title_ok s ->
  post_tasks (mkTaskCreate s desc) u w
  = get_session (create_task (mkTaskCreate s desc) u) w.
Proof.
  intros H. unfold post_tasks, validate_TaskCreate. simpl.
  destruct (check_title_field_cases s w) as [[_ E]|[Hn _]].
  - apply (route_passes _ _ _ E).
  - apply title_ok_len in H. tauto.
Qed.

Lemma post_tasks_ok s desc u w :
  title_ok s -> create_storable w u s desc ->
  post_tasks (mkTaskCreate s desc) u w
  = (inr (created w u s desc), after_create w (created w u s desc)).
Proof.
  intros H Hst. rewrite (post_tasks_passes s desc u w H).
  apply session_ok. now apply create_task_ok.
Qed.

Lemma post_tasks_rejected s desc u w :
  ~ title_ok s ->
  exists e, post_tasks (mkTaskCreate s desc) u w = (inl e, w)
            /\ is_validation_failure e = true.
Proof.
  intros H. unfold post_tasks, validate_TaskCreate. simpl.
  destruct (check_title_field_cases s w) as [[_ E]|[_ [c E]]].
  - rewrite (route_passes _ _ _ E).
    destruct (create_task_rejected s desc u w H) as (e & Ee & Hv & _).
    exists e. split; [|exact Hv].
    rewrite (session_raise _ _ _ _ Ee). now rewrite with_db_same.
  - eexists. split; [apply (route_refuses _ _ _ _ E) | reflexivity].
Qed.

(** How a creation with an acceptable title ends inside the session. *)
Lemma create_session_accepted s desc u w :
  title_ok s ->
  (create_storable w u s desc
   /\ get_session (create_task (mkTaskCreate s desc) u) w
      = (inr (created w u s desc), after_create w (created w u s desc)))
  \/ (~ create_storable w u s desc
      /\ exists m, get_session (create_task (mkTaskCreate s desc) u) w
                   = (inl (DBAPIError m), mkWorld (db w) (clock w) (S (S (ticks w))))).
Proof.
  intros Hok. destruct (decide (create_storable w u s desc)) as [Hst|Hn].
  - left. split; [exact Hst|]. apply session_ok. now apply create_task_ok.
  - right. split; [exact Hn|].
    destruct (create_task_refused s desc u w Hok Hn) as [m E].
    exists m. now rewrite (session_raise _ _ _ _ E).
Qed.

Lemma patch_task_passes i d u w :
  update_title_ok d \/ update_title d = Given None ->
  patch_task i d u w = get_session (update_task i d u) w.
Proof.
  intros H. unfold patch_task. apply route_passes.
  unfold validate_TaskUpdate, update_title_ok in *.
  destruct (update_title d) as [|[s|]]; try reflexivity.
  destruct H as [H|H]; [|discriminate].
  destruct (check_title_field_cases s w) as [[_ E]|[Hn _]]; [exact E|].
  apply title_ok_len in H. tauto.
Qed.

Lemma patch_task_rejected i d u w x :
  owns w u i x -> update_data_empty d = false -> ~ update_title_ok d ->
  exists e, patch_task i d u w = (inl e, w) /\ is_validation_failure e = true.
Proof.
  intros Ho He Hbad.
  assert (forall e, update_task i d u w = (inl e, w) ->
                    get_session (update_task i d u) w = (inl e, w)) as Hs.
  { intros e E. rewrite (session_raise _ _ _ _ E). now rewrite with_db_same. }
  destruct (update_task_rejected i d u w x Ho He Hbad) as (e & E & Hv & _).
  destruct (update_title d) as [|[s|]] eqn:Et.
  - unfold update_title_ok in Hbad. rewrite Et in Hbad. tauto.
  - unfold patch_task, validate_TaskUpdate. rewrite Et.
    destruct (check_title_field_cases s w) as [[_ Ec]|[_ [c Ec]]].
    + rewrite (route_passes _ _ _ Ec). exists e. auto.
    + eexists. split; [apply (route_refuses _ _ _ _ Ec) | reflexivity].
  - rewrite patch_task_passes by (now right). exists e. auto.
Qed.

Lemma update_title_set_nonempty d v :
  update_title d = Given v -> update_data_empty d = false.
Proof. intros H. unfold update_data_empty. now rewrite H. Qed.

Lemma completed_after_update d x :
  is_Some (Task.is_completed x) -> update_is_completed d <> Given None ->
  is_Some (Task.is_completed (apply_update_data (stripped d) x)).
Proof.
  intros Hx Hd. rewrite apply_update_data_completed, (proj2 (stripped_fields d)).
  destruct (update_is_completed d) as [|[b|]]; [exact Hx | eauto | congruence].
Qed.

Lemma title_after_update d x s :
  update_title d = Given (Some s) ->
  Task.title (apply_update_data (stripped d) x) = PyStr.strip s.
Proof.
  intros H. unfold stripped. rewrite H. unfold apply_update_data. simpl.
  destruct (update_description d), (update_is_completed d); reflexivity.
Qed.

(** ** Title validation *)

(** How an update of an owned task with an acceptable title ends inside
    the session. *)
Lemma update_session_accepted i d u w x :
  owns w u i x -> update_data_empty d = false -> update_title_ok d ->
  (exists t, get_session (update_task i d u) w = (inr t, after_write i t w)
             /\ t = Task.set_updated_at (clock w (ticks w))
                      (apply_update_data (stripped d) x))
  \/ (exists e, get_session (update_task i d u) w
                = (inl e, mkWorld (db w) (clock w) (S (ticks w)))
                /\ is_validation_failure e = false).
Proof.
  intros Ho He Hok.
  pose proof (update_task_flush i d u w x Ho He Hok) as Ef.
  pose proof (stamp_and_flush _ i x w (owns_find _ _ _ _ Ho)
                (apply_update_data_id i d u w x Ho)) as Es.
  rewrite <- Ef in Es.
  destruct (sends_nul (Some x) (apply_update_data (stripped d) x)).
  - right. eexists. rewrite (session_raise _ _ _ _ Es). split; reflexivity.
  - destruct (Task.is_completed (apply_update_data (stripped d) x)).
    + left. eexists. rewrite (session_ok _ _ _ _ Es). split; reflexivity.
    + right. eexists. rewrite (session_raise _ _ _ _ Es). split; reflexivity.
Qed.

(** C4, as the code has it: on create and on update, through the route
    and in the handler alone, a title is rejected with a validation
    failure, which leaves the world as it was, exactly when nothing is
    left after [strip] or the title as sent, not trimmed, has more than
    200 characters.  Every other title passes validation, and is stored
    stripped whenever the database takes the row (no NUL in the text,
    a key left in the sequence, no null completion flag); no request
    succeeds with a title that does not pass.  So titles of length 0,
    titles of white space only and titles of length 201 are rejected, and
    titles of length 1 or 200 with something left after [strip] pass. *)
Theorem title_rule s :
  (forall desc u w,
      (~ title_ok s ->
       (exists e, post_tasks (mkTaskCreate s desc) u w = (inl e, w)
                  /\ is_validation_failure e = true)
       /\ (exists e, get_session (create_task (mkTaskCreate s desc) u) w = (inl e, w)
                     /\ is_validation_failure e = true))
      /\ (title_ok s ->
          (forall e w', post_tasks (mkTaskCreate s desc) u w = (inl e, w') ->
                        is_validation_failure e = false)
          /\ (forall e w', get_session (create_task (mkTaskCreate s desc) u) w = (inl e, w') ->
                           is_validation_failure e = false))
      /\ (title_ok s -> create_storable w u s desc ->
          exists t w',
            post_tasks (mkTaskCreate s desc) u w = (inr t, w')
            /\ get_session (create_task (mkTaskCreate s desc) u) w = (inr t, w')
            /\ Task.title t = PyStr.strip s)
      /\ ((exists t w', post_tasks (mkTaskCreate s desc) u w = (inr t, w')) -> title_ok s)
      /\ ((exists t w', get_session (create_task (mkTaskCreate s desc) u) w = (inr t, w'))
          -> title_ok s))
  /\ (forall i d u w x,
        owns w u i x -> update_title d = Given (Some s) ->
        (~ title_ok s ->
         (exists e, patch_task i d u w = (inl e, w) /\ is_validation_failure e = true)
         /\ (exists e, get_session (update_task i d u) w = (inl e, w)
                       /\ is_validation_failure e = true))
        /\ (title_ok s ->
            (forall e w', patch_task i d u w = (inl e, w') ->
                          is_validation_failure e = false)
            /\ (forall e w', get_session (update_task i d u) w = (inl e, w') ->
                             is_validation_failure e = false))
        /\ (title_ok s -> is_Some (Task.is_completed x) ->
            update_is_completed d <> Given None -> update_storable d ->
            exists t w',
              patch_task i d u w = (inr t, w')
              /\ get_session (update_task i d u) w = (inr t, w')
              /\ Task.title t = PyStr.strip s)
        /\ ((exists t w', patch_task i d u w = (inr t, w')) -> title_ok s)
        /\ ((exists t w', get_session (update_task i d u) w = (inr t, w')) -> title_ok s))
  /\ (PyStr.len s = 0%nat \/ PyStr.strip s = "" \/ PyStr.len s = 201%nat -> ~ title_ok s)
  /\ (PyStr.len s = 1%nat \/ PyStr.len s = 200%nat -> PyStr.strip s <> "" -> title_ok s).
Proof.
  assert (forall A (r : (Exception + A) * World) w,
             (~ title_ok s -> exists e, r = (inl e, w)) ->
             (exists t w', r = (inr t, w')) -> title_ok s) as Hback.
  { intros A r w Hr (t & w' & E). destruct (decide (title_ok s)) as [|Hbad]; [assumption|].
    destruct (Hr Hbad) as (e & E'). congruence. }
  split_and!.
  - intros desc u w.
    assert (~ title_ok s ->
            (exists e, post_tasks (mkTaskCreate s desc) u w = (inl e, w)
                       /\ is_validation_failure e = true)
            /\ (exists e, get_session (create_task (mkTaskCreate s desc) u) w = (inl e, w)
                          /\ is_validation_failure e = true)) as Hrej.
    { intros Hbad. split; [now apply post_tasks_rejected|].
      destruct (create_task_rejected s desc u w Hbad) as (e & E & Hv & _).
      exists e. split; [|exact Hv].
      rewrite (session_raise _ _ _ _ E). now rewrite with_db_same. }
    assert (title_ok s ->
            forall e w', get_session (create_task (mkTaskCreate s desc) u) w = (inl e, w') ->
                         is_validation_failure e = false) as Hnov.
    { intros Hok e w' E.
      destruct (create_session_accepted s desc u w Hok) as [[_ E']|[_ [m E']]];
        rewrite E' in E; [discriminate|]. now injection E as <- _. }
    split_and!.
    + exact Hrej.
    + intros Hok. split; [|now apply Hnov].
      rewrite (post_tasks_passes s desc u w Hok). now apply Hnov.
    + intros Hok Hst. do 2 eexists. split_and!.
      * now apply post_tasks_ok.
      * apply session_ok. now apply create_task_ok.
      * reflexivity.
    + apply (Hback _ _ w). intros Hbad. destruct (Hrej Hbad) as [(e & E & _) _]. eauto.
    + apply (Hback _ _ w). intros Hbad. destruct (Hrej Hbad) as [_ (e & E & _)]. eauto.
  - intros i d u w x Ho Ht.
    pose proof (update_title_set_nonempty _ _ Ht) as He.
    assert (update_title_ok d <-> title_ok s) as Hd
      by (unfold update_title_ok; now rewrite Ht).
    assert (~ title_ok s ->
            (exists e, patch_task i d u w = (inl e, w) /\ is_validation_failure e = true)
            /\ (exists e, get_session (update_task i d u) w = (inl e, w)
                          /\ is_validation_failure e = true)) as Hrej.
    { intros Hbad. assert (~ update_title_ok d) as Hbad' by tauto. split.
      - now apply (patch_task_rejected i d u w x).
      - destruct (update_task_rejected i d u w x Ho He Hbad') as (e & E & Hv & _).
        exists e. split; [|exact Hv].
        rewrite (session_raise _ _ _ _ E). now rewrite with_db_same. }
    assert (title_ok s ->
            forall e w', get_session (update_task i d u) w = (inl e, w') ->
                         is_validation_failure e = false) as Hnov.
    { intros Hok e w' E. apply Hd in Hok.
      destruct (update_session_accepted i d u w x Ho He Hok) as [(t & E' & _)|(e' & E' & Hv)];
        rewrite E' in E; [discriminate|]. now injection E as <- _. }
    split_and!.
    + exact Hrej.
    + intros Hok. split; [|now apply Hnov].
      rewrite patch_task_passes by (left; now apply Hd). now apply Hnov.
    + intros Hok Hc Hf Hst. apply Hd in Hok.
      pose proof (update_task_ok i d u w x Ho He Hok (sends_nul_update d x Hst)
                    (completed_after_update d x Hc Hf)) as E.
      simpl in E. apply session_ok in E. do 2 eexists. split_and!.
      * rewrite patch_task_passes by (now left). exact E.
      * exact E.
      * simpl. now apply title_after_update.
    + apply (Hback _ _ w). intros Hbad. destruct (Hrej Hbad) as [(e & E & _) _]. eauto.
    + apply (Hback _ _ w). intros Hbad. destruct (Hrej Hbad) as [_ (e & E & _)]. eauto.
  - intros H Hok. pose proof (title_ok_len s Hok) as Hl. destruct Hok as [Hne _].
    destruct H as [H|[H|H]]; [lia | congruence | lia].
  - intros H Hne. split; [exact Hne | lia].
Qed.

Lemma title_rule_witness :
  (exists t w',
      post_tasks (mkTaskCreate "Buy bread" None) "u1" (world_empty clock_running)
      = (inr t, w')
      /\ Task.title t = "Buy bread")
  /\ exists t w',
       patch_task 1 (mkTaskUpdate (Given (Some "Buy bread")) Unset Unset) "u1" world_milk
       = (inr t, w')
       /\ Task.title t = "Buy bread".
Proof.
  assert (title_ok "Buy bread") as Hok by (split; [discriminate | vm_compute; lia]).
  destruct (title_rule "Buy bread") as (Hc & Hu & _). split.
  - destruct (Hc None "u1" (world_empty clock_running)) as (_ & _ & H & _).
    destruct H as (t & w' & E & _ & Ht); [exact Hok | now split_and! |].
    exists t, w'. split; [exact E | exact Ht].
  - destruct (Hu 1 (mkTaskUpdate (Given (Some "Buy bread")) Unset Unset) "u1"
                world_milk task_milk) as (_ & _ & H & _).
    + split; reflexivity.
    + reflexivity.
    + destruct H as (t & w' & E & _ & Ht);
        [exact Hok | exists false; reflexivity | discriminate | now split |].
      exists t, w'. split; [exact E | exact Ht].
Defined.

(** C4 as stated fails: ["a"] followed by 200 spaces is non-empty and one
    character long after trimming, yet it is rejected on create and on
    update, by the schema on the route and by the length test in the
    handler, because both measure the title as sent. *)
Lemma padded_title_rejected :
  PyStr.strip padded_title = "a"
  /\ title_ok_after_trim padded_title
  /\ post_tasks (mkTaskCreate padded_title None) "u1" (world_empty clock_running)
     = (inl (RequestValidationError "title" "string_too_long"), world_empty clock_running)
  /\ get_session (create_task (mkTaskCreate padded_title None) "u1") (world_empty clock_running)
     = (inl (ValidationError "Title must be 1-200 characters" "title" "length"),
        world_empty clock_running)
  /\ patch_task 1 (mkTaskUpdate (Given (Some padded_title)) Unset Unset) "u1" world_milk
     = (inl (RequestValidationError "title" "string_too_long"), world_milk)
  /\ get_session (update_task 1 (mkTaskUpdate (Given (Some padded_title)) Unset Unset) "u1")
       world_milk
     = (inl (ValidationError "Title must be 1-200 characters" "title" "length"), world_milk).
Proof.
  assert (PyStr.strip padded_title = "a") as Hs by (vm_compute; reflexivity).
  split; [exact Hs|]. split.
  - unfold title_ok_after_trim. rewrite Hs. split; [discriminate | vm_compute; lia].
  - repeat split; vm_compute; reflexivity.
Qed.

(** The handlers' rule is the stricter one: what they accept the spec's
    reading accepts too. *)
Lemma title_ok_after_trim_weaker s : title_ok s -> title_ok_after_trim s.
Proof.
  intros [Hne Hle]. split; [exact Hne|]. pose proof (len_strip s). lia.
Qed.

(** ** Update: atomic rejection *)

(** C7: an update of an owned task whose title is a string that is empty
    or white space only after [strip], or longer than 200 characters, is
    rejected with a validation failure, in the handler (status 400) and
    through the route, whatever else the body provides; the world after
    it is the world before it, so the stored task keeps every attribute,
    [updated_at] included. *)
Theorem invalid_title_update_atomic i d u w x s :
  owns w u i x ->
  update_title d = Given (Some s) ->
  PyStr.strip s = "" \/ (200 < PyStr.len s)%nat \/ ~ title_ok_after_trim s ->
  (exists e, update_task i d u w = (inl e, w)
             /\ is_validation_failure e = true /\ status_code e = 400)
  /\ (exists e, get_session (update_task i d u) w = (inl e, w)
                /\ is_validation_failure e = true /\ status_code e = 400)
  /\ (exists e, patch_task i d u w = (inl e, w) /\ is_validation_failure e = true)
  /\ stored w i = Some x.
Proof.
  intros Ho Ht Hbad.
  assert (~ update_title_ok d) as Hbad'.
  { unfold update_title_ok. rewrite Ht. intros Hok.
    destruct Hbad as [H|[H|H]].
    - now destruct Hok.
    - destruct Hok. lia.
    - now apply H, title_ok_after_trim_weaker. }
  pose proof (update_title_set_nonempty _ _ Ht) as He.
  destruct (update_task_rejected i d u w x Ho He Hbad') as (e & E & Hv & Hc).
  split_and!.
  - exists e. auto.
  - exists e. rewrite (session_raise _ _ _ _ E), with_db_same. auto.
  - now apply (patch_task_rejected i d u w x).
  - apply Ho.
Qed.

Lemma invalid_title_update_atomic_witness :
  exists e,
    get_session
      (update_task 1 (mkTaskUpdate (Given (Some "   ")) (Given (Some "2 litres"))
                                   (Given (Some true))) "u1") world_milk
    = (inl e, world_milk)
    /\ is_validation_failure e = true /\ status_code e = 400.
Proof.
  refine (proj1 (proj2 (invalid_title_update_atomic 1
            (mkTaskUpdate (Given (Some "   ")) (Given (Some "2 litres")) (Given (Some true)))
            "u1" world_milk task_milk "   " _ _ _))).
  - split; reflexivity.
  - reflexivity.
  - left. reflexivity.
Defined.

(** ** Completion toggles *)

Lemma owns_after_write i u x x' w :
  owns w u i x -> Task.id x' = Some i -> Task.user_id x' = u ->
  owns (after_write i x' w) u i x'.
Proof.
  intros [Hs Hu] Hid Hu'. split; [|exact Hu'].
  now apply (stored_after_write i x).
Qed.

(** C8: on an owned task, complete stores [is_completed = True] and
    uncomplete stores [is_completed = False], whatever the flag was; each
    succeeds, returns the stored task and sets [updated_at] to the clock's
    reading, also on a task already in the target state and when called
    twice in a row; complete followed by uncomplete leaves the task not
    completed. *)
Theorem completion_toggle i u w x :
  owns w u i x ->
  (exists c w1,
      get_session (complete_task i u) w = (inr c, w1)
      /\ Task.is_completed c = Some true
      /\ Task.updated_at c = clock w (ticks w)
      /\ stored w1 i = Some c
      /\ (exists c' w2,
             get_session (complete_task i u) w1 = (inr c', w2)
             /\ Task.is_completed c' = Some true
             /\ Task.updated_at c' = clock w1 (ticks w1)
             /\ stored w2 i = Some c')
      /\ (exists n w2,
             get_session (uncomplete_task i u) w1 = (inr n, w2)
             /\ Task.is_completed n = Some false
             /\ Task.updated_at n = clock w1 (ticks w1)
             /\ stored w2 i = Some n))
  /\ (exists n w1,
         get_session (uncomplete_task i u) w = (inr n, w1)
         /\ Task.is_completed n = Some false
         /\ Task.updated_at n = clock w (ticks w)
         /\ stored w1 i = Some n
         /\ (exists n' w2,
                get_session (uncomplete_task i u) w1 = (inr n', w2)
                /\ Task.is_completed n' = Some false
                /\ Task.updated_at n' = clock w1 (ticks w1)
                /\ stored w2 i = Some n')).
Proof.
  assert (forall w x, owns w u i x ->
            exists c w1, get_session (complete_task i u) w = (inr c, w1)
                         /\ Task.is_completed c = Some true
                         /\ Task.updated_at c = clock w (ticks w)
                         /\ owns w1 u i c) as Hc.
  { intros w0 x0 Ho. pose proof (complete_task_ok i u w0 x0 Ho) as E. simpl in E.
    apply session_ok in E. do 2 eexists. split; [exact E|].
    split; [reflexivity|]. split; [reflexivity|].
    apply (owns_after_write i u x0); [exact Ho | apply (owns_id _ _ _ _ Ho) | apply Ho]. }
  assert (forall w x, owns w u i x ->
            exists n w1, get_session (uncomplete_task i u) w = (inr n, w1)
                         /\ Task.is_completed n = Some false
                         /\ Task.updated_at n = clock w (ticks w)
                         /\ owns w1 u i n) as Hn.
  { intros w0 x0 Ho. pose proof (uncomplete_task_ok i u w0 x0 Ho) as E. simpl in E.
    apply session_ok in E. do 2 eexists. split; [exact E|].
    split; [reflexivity|]. split; [reflexivity|].
    apply (owns_after_write i u x0); [exact Ho | apply (owns_id _ _ _ _ Ho) | apply Ho]. }
  intros Ho. split.
  - destruct (Hc w x Ho) as (c & w1 & E & H1 & H2 & Ho1).
    exists c, w1. split_and!; try assumption; [apply Ho1| |].
    + destruct (Hc w1 c Ho1) as (c' & w2 & E' & H1' & H2' & Ho2).
      exists c', w2. split_and!; try assumption. apply Ho2.
    + destruct (Hn w1 c Ho1) as (n & w2 & E' & H1' & H2' & Ho2).
      exists n, w2. split_and!; try assumption. apply Ho2.
  - destruct (Hn w x Ho) as (n & w1 & E & H1 & H2 & Ho1).
    exists n, w1. split_and!; try assumption; [apply Ho1|].
    destruct (Hn w1 n Ho1) as (n' & w2 & E' & H1' & H2' & Ho2).
    exists n', w2. split_and!; try assumption. apply Ho2.
Qed.

Lemma completion_toggle_witness :
  exists c w1,
    get_session (complete_task 1 "u1") world_milk = (inr c, w1)
    /\ Task.is_completed c = Some true
    /\ exists n w2,
         get_session (uncomplete_task 1 "u1") w1 = (inr n, w2)
         /\ Task.is_completed n = Some false.
Proof.
  destruct (completion_toggle 1 "u1" world_milk task_milk) as [H _].
  - split; reflexivity.
  - destruct H as (c & w1 & E & Hc & _ & _ & _ & (n & w2 & E' & Hn & _)).
    exists c, w1. split; [exact E|]. split; [exact Hc|].
    exists n, w2. split; [exact E' | exact Hn].
Defined.

(** ** Partial update *)

(** Every way [update_task] can end for the owner of a stored task. *)
Lemma update_task_cases i d u w x :
  owns w u i x -> is_Some (Task.is_completed x) ->
  (update_data_empty d = true /\ update_task i d u w = (inr x, w))
  \/ (update_data_empty d = false /\ ~ update_title_ok d
      /\ exists e, update_task i d u w = (inl e, w) /\ is_validation_failure e = true)
  \/ (update_data_empty d = false /\ update_title_ok d
      /\ ((sends_nul (Some x) (apply_update_data (stripped d) x) = true
           /\ update_task i d u w
              = (inl (DBAPIError "invalid byte sequence for encoding UTF8: 0x00"),
                 mkWorld (db w) (clock w) (S (ticks w))))
          \/ (sends_nul (Some x) (apply_update_data (stripped d) x) = false
              /\ update_is_completed d = Given None
              /\ update_task i d u w
                 = (inl (IntegrityError "is_completed"),
                    mkWorld (db w) (clock w) (S (ticks w))))))
  \/ (update_data_empty d = false /\ update_title_ok d
      /\ update_is_completed d <> Given None
      /\ sends_nul (Some x) (apply_update_data (stripped d) x) = false
      /\ let x' := Task.set_updated_at (clock w (ticks w))
                     (apply_update_data (stripped d) x) in
         update_task i d u w = (inr x', after_write i x' w)).
Proof.
  intros Ho Hc.
  destruct (update_data_empty d) eqn:He.
  { left. split; [reflexivity|]. now apply update_task_noop. }
  right. destruct (decide (update_title_ok d)) as [Hok|Hbad].
  2:{ left. split; [reflexivity|]. split; [exact Hbad|].
      destruct (update_task_rejected i d u w x Ho He Hbad) as (e & E & Hv & _).
      eauto. }
  right. destruct (sends_nul (Some x) (apply_update_data (stripped d) x)) eqn:Hn.
  { left. split_and!; try done. left. split; [reflexivity|].
    now apply (update_task_nul i d u w x). }
  destruct (update_is_completed d) as [|[b|]] eqn:Ef.
  - right. split_and!; try done.
    apply update_task_ok; try assumption.
    apply completed_after_update; [assumption | congruence].
  - right. split_and!; try done.
    apply update_task_ok; try assumption.
    apply completed_after_update; [assumption | congruence].
  - left. split_and!; try done. right. split_and!; try done.
    now apply (update_task_null_flag i d u w x).
Qed.

Lemma session_inr_inv {A} (m : M A) w a w' :
  get_session m w = (inr a, w') -> m w = (inr a, w').
Proof.
  unfold get_session. destruct (m w) as [[e|a0] w0]; intros H; congruence.
Qed.

Lemma apply_update_data_unset d x :
  (update_title d = Unset ->
   Task.title (apply_update_data (stripped d) x) = Task.title x)
  /\ (update_description d = Unset ->
      Task.description (apply_update_data (stripped d) x) = Task.description x)
  /\ (update_is_completed d = Unset ->
      Task.is_completed (apply_update_data (stripped d) x) = Task.is_completed x).
Proof.
  destruct d as [[|[s|]] [|de] [|co]]; unfold stripped, apply_update_data; simpl;
    split_and!; intros; congruence.
Qed.

Lemma update_task_null_title i d u w x :
  owns w u i x -> update_title d = Given None ->
  update_task i d u w
  = (inl (ValidationError "Title is required" "title" "required"), w).
Proof.
  intros Ho Ht. unfold update_task.
  rewrite (bind_guard_owned _ _ _ _ _ Ho), (update_title_set_nonempty _ _ Ht).
  unfold mbind, M_bind, validate_update_title. rewrite Ht. reflexivity.
Qed.

(** C10: for the owner of a stored task, an accepted update leaves every
    attribute whose key is not in the body as it was; a body whose only
    key is [description] with the value [null] is not the empty body: it
    stores no description, sets [updated_at] to the clock's reading and is
    written to the table; a body with [title] set to [null] is rejected
    with the validation failure "Title is required" and changes nothing. *)
Theorem update_null_semantics i d u w x :
  owns w u i x -> is_Some (Task.is_completed x) ->
  (forall t w',
      get_session (update_task i d u) w = (inr t, w') ->
      (update_title d = Unset -> Task.title t = Task.title x)
      /\ (update_description d = Unset -> Task.description t = Task.description x)
      /\ (update_is_completed d = Unset -> Task.is_completed t = Task.is_completed x)
      /\ stored w' i = Some t)
  /\ (let only_null := mkTaskUpdate Unset (Given None) Unset in
      let x' := Task.set_updated_at (clock w (ticks w)) (Task.set_description None x) in
      update_data_empty only_null = false
      /\ get_session (update_task i only_null u) w = (inr x', after_write i x' w)
      /\ patch_task i only_null u w = (inr x', after_write i x' w)
      /\ Task.description x' = None
      /\ Task.updated_at x' = clock w (ticks w)
      /\ stored (after_write i x' w) i = Some x')
  /\ (update_title d = Given None ->
      get_session (update_task i d u) w
      = (inl (ValidationError "Title is required" "title" "required"), w)
      /\ patch_task i d u w
         = (inl (ValidationError "Title is required" "title" "required"), w)
      /\ stored w i = Some x).
Proof.
  intros Ho Hc. split_and!.
  - intros t w' E. apply session_inr_inv in E.
    destruct (update_task_cases i d u w x Ho Hc)
      as [[_ E']|[(_ & _ & e & E' & _)
                 |[(_ & _ & [[_ E']|(_ & _ & E')])|(_ & _ & _ & _ & E')]]];
      simpl in E'; rewrite E' in E; try discriminate; injection E as <- <-.
    + split_and!; try reflexivity. apply Ho.
    + destruct (apply_update_data_unset d x) as (H1 & H2 & H3).
      split_and!; simpl; try assumption.
      apply (stored_after_write i x); [apply Ho|].
      simpl. rewrite (proj1 (apply_update_data_fixed (stripped d) x)).
      apply (owns_id _ _ _ _ Ho).
  - simpl.
    assert (update_task i (mkTaskUpdate Unset (Given None) Unset) u w
            = (inr (Task.set_updated_at (clock w (ticks w)) (Task.set_description None x)),
               after_write i (Task.set_updated_at (clock w (ticks w))
                                (Task.set_description None x)) w)) as E.
    { apply (update_task_ok i (mkTaskUpdate Unset (Given None) Unset) u w x);
        [exact Ho | reflexivity | exact I | | exact Hc].
      apply sends_nul_update. now split. }
    apply session_ok in E. split_and!; try reflexivity.
    + exact E.
    + rewrite patch_task_passes; [exact E | left; exact I].
    + apply (stored_after_write i x); [apply Ho | apply (owns_id _ _ _ _ Ho)].
  - intros Ht. pose proof (update_task_null_title i d u w x Ho Ht) as E.
    apply session_raise in E. rewrite with_db_same in E. split_and!.
    + exact E.
    + rewrite patch_task_passes; [exact E | now right].
    + apply Ho.
Qed.

Lemma update_null_semantics_witness :
  get_session (update_task 1 (mkTaskUpdate (Given None) Unset Unset) "u1") world_milk
  = (inl (ValidationError "Title is required" "title" "required"), world_milk).
Proof.
  refine (proj1 (proj2 (proj2 (update_null_semantics 1
            (mkTaskUpdate (Given None) Unset Unset) "u1" world_milk task_milk _ _)) _)).
  - split; reflexivity.
  - exists false. reflexivity.
  - reflexivity.
Defined.

(** C5, at the input where the code departs from it: the owner of the
    task of [world_milk] sends the body [{"is_completed": null}].  The body
    provides one key, so this is not the no-op; the null is set on the
    task like any other value, although the handler's comment says only
    values that are not [None] are applied, and the flush is refused by the
    NOT NULL column.  The update does not succeed: it ends in the storage
    layer's [IntegrityError], status 500, through the route and in the
    handler, and the stored task keeps its [updated_at] of 1001. *)
Theorem null_flag_update_refused :
  owns world_milk "u1" 1 task_milk
  /\ Task.updated_at task_milk = 1001
  /\ update_data_empty (mkTaskUpdate Unset Unset (Given None)) = false
  /\ patch_task 1 (mkTaskUpdate Unset Unset (Given None)) "u1" world_milk
     = (inl (IntegrityError "is_completed"), mkWorld (db world_milk) clock_running 3)
  /\ get_session (update_task 1 (mkTaskUpdate Unset Unset (Given None)) "u1") world_milk
     = (inl (IntegrityError "is_completed"), mkWorld (db world_milk) clock_running 3)
  /\ status_code (IntegrityError "is_completed") = 500
  /\ stored (mkWorld (db world_milk) clock_running 3) 1 = Some task_milk.
Proof. split_and!; try reflexivity. split; reflexivity. Qed.

(** ** Listing *)

Lemma insert_desc_perm x l : Permutation (insert_desc x l) (x :: l).
Proof.
  induction l as [|y r IH]; simpl; [reflexivity|].
  destruct (Task.created_at x <? Task.created_at y); [|reflexivity].
  rewrite IH. apply perm_swap.
Qed.

Lemma order_by_perm l : Permutation (order_by_created_at_desc l) l.
Proof.
  induction l as [|x l IH]; simpl; [reflexivity|].
  rewrite insert_desc_perm. now apply perm_skip.
Qed.

Lemma insert_desc_sorted x l :
  StronglySorted newer_or_equal l -> StronglySorted newer_or_equal (insert_desc x l).
Proof.
  induction 1 as [|y r Hr IH Hy]; simpl.
  - constructor; constructor.
  - destruct (Task.created_at x <? Task.created_at y) eqn:E.
    + apply Z.ltb_lt in E. constructor; [exact IH|].
      apply (Permutation_Forall (Permutation_sym (insert_desc_perm x r))).
      constructor; [unfold newer_or_equal; lia | exact Hy].
    + apply Z.ltb_ge in E. constructor; [now constructor|].
      constructor; [exact E|].
      eapply Forall_impl; [exact Hy|]. unfold newer_or_equal. intros z Hz.
      simpl in *. lia.
Qed.

Lemma order_by_sorted l : StronglySorted newer_or_equal (order_by_created_at_desc l).
Proof.
  induction l as [|x l IH]; simpl; [constructor | now apply insert_desc_sorted].
Qed.

(** Three tasks of pairwise distinct creation times have one newest-first
    arrangement. *)
Lemma sorted_three l a b c :
  StronglySorted newer_or_equal l -> Permutation l [a; b; c] ->
  Task.created_at a < Task.created_at b < Task.created_at c ->
  l = [c; b; a].
Proof.
  intros Hs Hp Hlt.
  pose proof (Permutation_length Hp) as Hlen.
  destruct l as [|x [|y [|z [|]]]]; simpl in Hlen; try discriminate.
  assert (forall t, In t [a; b; c] -> In t [x; y; z]) as Hin
    by (intros t; apply Permutation_in; now symmetry).
  assert (forall t, In t [x; y; z] -> In t [a; b; c]) as Hin'
    by (intros t; now apply Permutation_in).
  apply StronglySorted_inv in Hs as [Hs Hx].
  apply StronglySorted_inv in Hs as [_ Hy].
  apply Forall_cons_iff in Hx as [Hxy Hx]. apply Forall_cons_iff in Hx as [Hxz _].
  apply Forall_cons_iff in Hy as [Hyz _].
  unfold newer_or_equal in *.
  assert (In a [x; y; z]) as Ha by (apply Hin; simpl; auto).
  assert (In b [x; y; z]) as Hb by (apply Hin; simpl; auto).
  assert (In c [x; y; z]) as Hc by (apply Hin; simpl; auto).
  assert (In x [a; b; c]) as Hx' by (apply Hin'; simpl; auto).
  assert (In y [a; b; c]) as Hy' by (apply Hin'; simpl; auto).
  assert (In z [a; b; c]) as Hz' by (apply Hin'; simpl; auto).
  clear Hin Hin'. simpl in *.
  assert (x = c) as ->.
  { destruct Hc as [?|[?|[?|[]]]]; [congruence| |]; subst;
      destruct Hx' as [?|[?|[?|[]]]]; auto; subst; lia. }
  assert (z = a) as ->.
  { destruct Ha as [?|[?|[?|[]]]]; [| |congruence]; subst;
      destruct Hz' as [?|[?|[?|[]]]]; auto; subst; lia. }
  assert (y = b) as ->.
  { destruct Hb as [?|[?|[?|[]]]]; [|congruence|]; subst; lia. }
  reflexivity.
Qed.

Lemma owned_by_true u x : owned_by u x = true <-> Task.user_id x = u.
Proof. unfold owned_by. apply String.eqb_eq. Qed.

Lemma filter_owned_none u l :
  (forall x, In x l -> Task.user_id x <> u) -> List.filter (owned_by u) l = [].
Proof.
  induction l as [|x l IH]; intros Hnone; [reflexivity|]. simpl.
  destruct (owned_by u x) eqn:E.
  - apply owned_by_true in E. exfalso. apply (Hnone x); [now left | exact E].
  - apply IH. intros y Hy. apply Hnone. now right.
Qed.

Lemma list_tasks_eq u w :
  get_session (list_tasks u) w
  = (inr (order_by_created_at_desc (List.filter (owned_by u) (rows (db w)))), w).
Proof. reflexivity. Qed.

(** C9, as the code has it: the list operation succeeds with exactly the
    tasks the identity owns (no other task, and each as often as the table
    has it), newest first by [created_at]; the statement names no second
    sort key, so nothing is promised about tasks of equal [created_at].
    Three tasks created at T1 < T2 < T3 come back as T3, T2, T1, and an
    identity without tasks gets the empty list. *)
Theorem list_ordering u w :
  exists l,
    get_session (list_tasks u) w = (inr l, w)
    /\ Permutation l (List.filter (owned_by u) (rows (db w)))
    /\ (forall x, In x l <-> In x (rows (db w)) /\ Task.user_id x = u)
    /\ StronglySorted newer_or_equal l
    /\ (forall a b c,
           Permutation (List.filter (owned_by u) (rows (db w))) [a; b; c] ->
           Task.created_at a < Task.created_at b < Task.created_at c ->
           l = [c; b; a])
    /\ ((forall x, In x (rows (db w)) -> Task.user_id x <> u) -> l = []).
Proof.
  exists (order_by_created_at_desc (List.filter (owned_by u) (rows (db w)))).
  pose proof (order_by_perm (List.filter (owned_by u) (rows (db w)))) as Hp.
  split_and!.
  - apply list_tasks_eq.
  - exact Hp.
  - intros x. rewrite <- owned_by_true, <- filter_In.
    split; apply Permutation_in; [exact Hp | now symmetry].
  - apply order_by_sorted.
  - intros a b c Habc Hlt. apply (sorted_three _ a b c); [apply order_by_sorted| |exact Hlt].
    now rewrite Hp.
  - intros Hnone. now rewrite (filter_owned_none u _ Hnone).
Qed.

Lemma list_ordering_witness :
  get_session (list_tasks "u1") world_three
  = (inr [task_t3; task_t2; task_t1], world_three).
Proof.
  destruct (list_ordering "u1" world_three) as (l & E & _ & _ & _ & H & _).
  rewrite E. f_equal. f_equal. apply H.
  - vm_compute. apply perm_swap.
  - vm_compute. split; reflexivity.
Defined.

(** C9 as stated fails on the tie-break: the two tasks ["u1"] creates
    while the clock stands still have equal [created_at], and the list
    returns them as the scan meets them, key 1 before key 2; with the
    scan order swapped the same two rows come back as key 2, key 1.  The
    order among them is the scan's, not that of the keys. *)
Lemma ties_keep_scan_order :
  rows (db world_ties) = [tie_first; tie_second]
  /\ Task.created_at tie_first = Task.created_at tie_second
  /\ Task.id tie_first = Some 1 /\ Task.id tie_second = Some 2
  /\ get_session (list_tasks "u1") world_ties = (inr [tie_first; tie_second], world_ties)
  /\ get_session (list_tasks "u1") world_ties_swapped
     = (inr [tie_second; tie_first], world_ties_swapped).
Proof. repeat split; vm_compute; reflexivity. Qed.

(** ** Create *)

Lemma count_occ_filter_owned u l x :
  owned_by u x = true ->
  count_occ Task.eq_dec (List.filter (owned_by u) l) x = count_occ Task.eq_dec l x.
Proof.
  intros Hx. induction l as [|a l IH]; simpl; [reflexivity|].
  destruct (owned_by u a) eqn:Ea; simpl.
  - destruct (Task.eq_dec a x); now rewrite IH.
  - destruct (Task.eq_dec a x) as [->|_]; [congruence | exact IH].
Qed.

Lemma fresh_key_not_stored d x :
  db_wf d -> Task.id x = Some (next_id d) -> ~ In x (rows d).
Proof.
  intros [_ Hok] Hid Hin. rewrite Forall_forall in Hok.
  destruct (Hok x (proj2 (list_elem_of_In _ _) Hin)) as [Hlt _].
  rewrite Hid in Hlt. lia.
Qed.

Lemma created_fields w u s desc :
  Task.id (created w u s desc) = Some (next_id (db w))
  /\ Task.user_id (created w u s desc) = u
  /\ Task.title (created w u s desc) = PyStr.strip s
  /\ Task.description (created w u s desc) = desc
  /\ Task.is_completed (created w u s desc) = Some false
  /\ Task.created_at (created w u s desc) = clock w (ticks w)
  /\ Task.updated_at (created w u s desc) = clock w (S (ticks w)).
Proof. repeat split. Qed.

(** C6, as the code has it: for every acceptable title, description and
    identity that the database can store (no NUL in the three, a key left
    in the sequence), create succeeds with a task that is not completed,
    carries the identity, the stripped title and the description, has
    [created_at] from one clock reading and [updated_at] from the next
    (equal when the two readings are, and not earlier when the clock does
    not go back), and the list the same identity asks for next contains
    that task exactly once. *)
Theorem create_postcondition s desc u w :
  db_wf (db w) -> title_ok s -> create_storable w u s desc ->
  exists x w',
    get_session (create_task (mkTaskCreate s desc) u) w = (inr x, w')
    /\ post_tasks (mkTaskCreate s desc) u w = (inr x, w')
    /\ Task.is_completed x = Some false
    /\ Task.user_id x = u /\ Task.title x = PyStr.strip s /\ Task.description x = desc
    /\ Task.created_at x = clock w (ticks w)
    /\ Task.updated_at x = clock w (S (ticks w))
    /\ (clock w (ticks w) = clock w (S (ticks w)) -> Task.created_at x = Task.updated_at x)
    /\ (clock w (ticks w) <= clock w (S (ticks w)) -> Task.created_at x <= Task.updated_at x)
    /\ exists l,
         get_session (list_tasks u) w' = (inr l, w')
         /\ In x l
         /\ count_occ Task.eq_dec l x = 1%nat.
Proof.
  intros Hwf Hok Hst.
  exists (created w u s desc), (after_create w (created w u s desc)).
  destruct (created_fields w u s desc) as (Hid & Hu & Ht & Hd & Hc & Hca & Hua).
  assert (count_occ Task.eq_dec
            (order_by_created_at_desc
               (List.filter (owned_by u)
                  (rows (db (after_create w (created w u s desc))))))
            (created w u s desc) = 1%nat) as Hcount.
  { rewrite (proj1 (Permutation_count_occ Task.eq_dec _ _) (order_by_perm _)).
    rewrite count_occ_filter_owned by (now apply owned_by_true).
    change (rows (db (after_create w (created w u s desc))))
      with (rows (db w) ++ [created w u s desc])%list.
    rewrite count_occ_app, (count_occ_cons_eq Task.eq_dec _ eq_refl), count_occ_nil.
    rewrite (proj1 (count_occ_not_In Task.eq_dec _ _)
               (fresh_key_not_stored (db w) _ Hwf Hid)).
    reflexivity. }
  split_and!; try assumption.
  - apply session_ok. now apply create_task_ok.
  - now apply post_tasks_ok.
  - rewrite Hca, Hua. tauto.
  - rewrite Hca, Hua. tauto.
  - eexists. split; [apply list_tasks_eq|]. split; [|exact Hcount].
    apply (count_occ_In Task.eq_dec). rewrite Hcount. lia.
Qed.

Lemma create_postcondition_witness :
  exists x w',
    post_tasks (mkTaskCreate "Buy bread" (Some "wholemeal")) "u1" world_milk = (inr x, w')
    /\ Task.is_completed x = Some false
    /\ exists l, get_session (list_tasks "u1") w' = (inr l, w')
                 /\ count_occ Task.eq_dec l x = 1%nat.
Proof.
  destruct (create_postcondition "Buy bread" (Some "wholemeal") "u1" world_milk)
    as (x & w' & _ & E & Hc & _ & _ & _ & _ & _ & _ & _ & l & El & _ & Hn).
  - vm_compute. split; [|repeat constructor; eauto].
    apply NoDup_cons. split; [apply not_elem_of_nil | apply NoDup_nil_2].
  - split; [discriminate | vm_compute; lia].
  - split_and!; reflexivity.
  - exists x, w'. split; [exact E|]. split; [exact Hc|].
    exists l. split; [exact El | exact Hn].
Defined.

(** C6 as stated fails on the time stamps: with a clock that advances
    between the two readings, the created task has [created_at] 1000 and
    [updated_at] 1001.  It also fails for a title the handler accepts and
    the database does not: the one-character title NUL passes both checks
    and the creation ends in the server's refusal, with nothing stored. *)
Lemma created_stamps_differ :
  (exists x w',
      post_tasks (mkTaskCreate "Buy milk" None) "u1" (world_empty clock_running) = (inr x, w')
      /\ Task.created_at x = 1000
      /\ Task.updated_at x = 1001
      /\ Task.created_at x <> Task.updated_at x)
  /\ title_ok nul_title
  /\ post_tasks (mkTaskCreate nul_title None) "u1" (world_empty clock_running)
     = (inl (DBAPIError "invalid byte sequence for encoding UTF8: 0x00"),
        mkWorld (mkDb [] 1) clock_running 2).
Proof.
  split_and!.
  - do 2 eexists. split; [vm_compute; reflexivity|].
    split; [reflexivity|]. split; [reflexivity|]. discriminate.
  - split; [discriminate | vm_compute; lia].
  - reflexivity.
Qed.

(** ** Data isolation *)

Lemma returning_ok {A} (f : A -> list Task.t) (m : M A) w a w' :
  m w = (inr a, w') -> returning f m w = (inr (f a), w').
Proof. intros H. unfold returning, mbind, M_bind. now rewrite H. Qed.

Lemma returning_raise {A} (f : A -> list Task.t) (m : M A) w e w' :
  m w = (inl e, w') -> returning f m w = (inl e, w').
Proof. intros H. unfold returning, mbind, M_bind. now rewrite H. Qed.

Lemma stored_row_ok w i x :
  db_wf (db w) -> stored w i = Some x -> row_ok (next_id (db w)) x.
Proof.
  intros [_ Hok] Hs. apply stored_has_id in Hs as [Hin _].
  rewrite Forall_forall in Hok. apply Hok. now apply list_elem_of_In.
Qed.

Lemma row_ok_key n x i : row_ok n x -> Task.id x = Some i -> i < n.
Proof. intros [H _] Hid. now rewrite Hid in H. Qed.

Lemma NoDup_map_filter {A B} (f : A -> B) (p : A -> bool) l :
  NoDup (map f l) -> NoDup (map f (List.filter p l)).
Proof.
  induction l as [|a l IH]; simpl; [auto|].
  intros Hnd. apply NoDup_cons in Hnd as [Hnotin Hnd].
  destruct (p a); simpl; [|auto].
  apply NoDup_cons. split; [|auto].
  intros Hin. apply Hnotin. apply list_elem_of_In in Hin. apply list_elem_of_In.
  apply in_map_iff in Hin as (y & Hy & Hin). apply filter_In in Hin as [Hin _].
  apply in_map_iff. eauto.
Qed.

Lemma map_id_overwrite i x' l :
  Task.id x' = Some i ->
  map Task.id (map (fun r => if has_id i r then x' else r) l) = map Task.id l.
Proof.
  intros Hid. induction l as [|r l IH]; simpl; [reflexivity|].
  rewrite IH. destruct (has_id i r) eqn:E; [|reflexivity].
  apply has_id_true in E. congruence.
Qed.

(** The table's constraints survive every effect. *)
Lemma effect_wf u d d' : db_wf d -> effect u d d' -> db_wf d'.
Proof.
  intros [Hnd Hok] He. destruct He as [|x Hid Hu Hc|i x x' Hf Hu Hid Hu' Hc|i x Hf Hu].
  - now split.
  - split; simpl.
    + rewrite map_app. simpl. apply NoDup_app. split; [exact Hnd|]. split.
      * intros k Hk Hk'. apply list_elem_of_In in Hk.
        apply in_map_iff in Hk as (r & Hr & Hin).
        rewrite Forall_forall in Hok.
        destruct (Hok r (proj2 (list_elem_of_In _ _) Hin)) as [Hlt _].
        apply list_elem_of_In in Hk'. simpl in Hk'. destruct Hk' as [Hk'|[]].
        rewrite Hr, <- Hk', Hid in Hlt. lia.
      * apply NoDup_singleton.
    + apply Forall_app. split.
      * eapply Forall_impl; [exact Hok|]. intros r [Hr Hcr]. split; [|exact Hcr].
        destruct (Task.id r); [lia | exact Hr].
      * constructor; [|constructor]. split; [rewrite Hid; lia | exact Hc].
  - split; unfold overwrite; simpl.
    + now rewrite map_id_overwrite.
    + assert (row_ok (next_id d) x') as Hx'.
      { split; [|exact Hc]. rewrite Hid.
        apply find_has_id in Hf as [Hin Hxi].
        rewrite Forall_forall in Hok.
        destruct (Hok x (proj2 (list_elem_of_In _ _) Hin)) as [Hlt _].
        now rewrite Hxi in Hlt. }
      clear Hf. induction Hok as [|r l Hr Hl IH]; simpl; [constructor|].
      apply NoDup_cons in Hnd as [_ Hnd].
      constructor; [destruct (has_id i r); assumption | now apply IH].
  - split; simpl.
    + now apply NoDup_map_filter.
    + rewrite Forall_forall in *. intros r Hr. apply Hok.
      apply list_elem_of_In in Hr. apply filter_In in Hr as [Hr _].
      now apply list_elem_of_In.
Qed.

Lemma others_overwrite u i x' l :
  owned_by u x' = true ->
  (forall r, In r l -> has_id i r = true -> owned_by u r = true) ->
  List.filter (fun r => negb (owned_by u r)) (map (fun r => if has_id i r then x' else r) l)
  = List.filter (fun r => negb (owned_by u r)) l.
Proof.
  intros Hx' Hl. induction l as [|r l IH]; simpl; [reflexivity|].
  rewrite IH by (intros; apply Hl; [now right | assumption]).
  destruct (has_id i r) eqn:E; [|reflexivity].
  rewrite Hx', (Hl r (or_introl eq_refl) E). reflexivity.
Qed.

Lemma others_delete u i l :
  (forall r, In r l -> has_id i r = true -> owned_by u r = true) ->
  List.filter (fun r => negb (owned_by u r)) (List.filter (fun r => negb (has_id i r)) l)
  = List.filter (fun r => negb (owned_by u r)) l.
Proof.
  intros Hl. induction l as [|r l IH]; simpl; [reflexivity|].
  rewrite <- IH by (intros; apply Hl; [now right | assumption]).
  destruct (has_id i r) eqn:E; simpl; [|reflexivity].
  now rewrite (Hl r (or_introl eq_refl) E).
Qed.

(** No effect of [u] touches a row of another identity. *)
Lemma effect_others u d d' : db_wf d -> effect u d d' -> others u d' = others u d.
Proof.
  intros Hwf He. unfold others.
  destruct He as [|x Hid Hu Hc|i x x' Hf Hu Hid Hu' Hc|i x Hf Hu]; simpl.
  - reflexivity.
  - rewrite List.filter_app. simpl.
    apply owned_by_true in Hu. rewrite Hu. simpl. apply app_nil_r.
  - apply others_overwrite; [now apply owned_by_true|].
    intros r Hr Hi. rewrite (key_unique d i x r Hwf Hf Hr Hi). now apply owned_by_true.
  - apply others_delete.
    intros r Hr Hi. rewrite (key_unique d i x r Hwf Hf Hr Hi). now apply owned_by_true.
Qed.

(** A key stays with the identity it was handed to. *)
Lemma effect_key_of a i u d d' :
  db_wf d -> key_of a i d -> effect u d d' -> key_of a i d'.
Proof.
  intros Hwf [Hlt Hown] He.
  destruct He as [|x Hid Hu Hc|j x x' Hf Hu Hid Hu' Hc|j x Hf Hu]; simpl.
  - now split.
  - split; simpl; [lia|]. intros r Hr Hri. apply in_app_or in Hr as [Hr|[<-|[]]].
    + now apply Hown.
    + rewrite Hid in Hri. injection Hri as Hri. lia.
  - split; simpl; [exact Hlt|]. intros r Hr Hri.
    apply in_map_iff in Hr as (r0 & Hr0 & Hin).
    destruct (has_id j r0) eqn:E.
    + subst r. rewrite Hid in Hri. injection Hri as ->.
      apply find_has_id in Hf as [Hxin Hxi].
      rewrite Hu'. rewrite <- Hu. now apply Hown.
    + subst r0. now apply Hown.
  - split; simpl; [exact Hlt|]. intros r Hr Hri.
    apply filter_In in Hr as [Hr _]. now apply Hown.
Qed.

Lemma perform_raise {A} (f : A -> list Task.t) (m : M A) w e :
  m w = (inl e, w) -> get_session (returning f m) w = (inl e, w).
Proof.
  intros H. rewrite (session_raise _ _ _ _ (returning_raise f m _ _ _ H)).
  now rewrite with_db_same.
Qed.

Lemma perform_ok {A} (f : A -> list Task.t) (m : M A) w a w' :
  m w = (inr a, w') -> get_session (returning f m) w = (inr (f a), w').
Proof. intros H. apply session_ok. now apply returning_ok. Qed.

(** When the guard refuses, the four guarded handlers end with its error
    and an untouched world. *)
Lemma guarded_not_found i u w e :
  get_task_with_ownership i u w = (inl e, w) ->
  (forall d, update_task i d u w = (inl e, w))
  /\ delete_task i u w = (inl e, w)
  /\ complete_task i u w = (inl e, w)
  /\ uncomplete_task i u w = (inl e, w).
Proof.
  intros E. split_and!; [intros d; unfold update_task | unfold delete_task
                        | unfold complete_task | unfold uncomplete_task];
    now apply bind_guard_raise.
Qed.

(** The handler of every operation ends in one of the outcomes. *)
Lemma perform_outcome op u w :
  db_wf (db w) -> outcome u w op (perform op u w).
Proof.
  intros Hwf. destruct op as [[s desc]| |i d|i|i|i]; unfold perform.
  - destruct (decide (title_ok s)) as [Hok|Hbad].
    + destruct (create_session_accepted s desc u w Hok) as [[Hst E]|[Hn [m E]]].
      * rewrite (perform_ok _ _ _ _ _ (create_task_ok s desc u w Hok Hst)).
        now apply (create_stored u w (mkTaskCreate s desc)).
      * destruct (create_task_refused s desc u w Hok Hn) as [m' E'].
        rewrite (session_raise _ _ _ _ (returning_raise _ _ _ _ _ E')).
        now apply (create_refused u w (mkTaskCreate s desc)).
    + destruct (create_task_rejected s desc u w Hbad) as (e & E & Hv & Hc).
      rewrite (perform_raise _ _ _ _ E).
      now apply (create_rejected u w (mkTaskCreate s desc)).
  - rewrite list_tasks_eq. constructor.
  - destruct (guard_cases i u w) as [(x & Ho & _)|[[Hr E]|[Hr E]]].
    + pose proof (stored_row_ok w i x Hwf (proj1 Ho)) as [_ Hc].
      destruct (update_task_cases i d u w x Ho Hc)
        as [[He E]|[(He & Hbad & e & E & Hv)
                   |[(He & Hok & [[Hn E]|(Hn & Hf & E)])|(He & Hok & Hf & Hn & E)]]].
      * rewrite (perform_ok _ _ _ _ _ E). now apply (update_nothing u w i d x).
      * destruct (update_task_rejected i d u w x Ho He Hbad) as (e1 & E1 & Hv1 & Hc1).
        rewrite (perform_raise _ _ _ _ E1). now apply (update_rejected u w i d x).
      * rewrite (session_raise _ _ _ _ (returning_raise _ _ _ _ _ E)).
        now apply (update_refused_nul u w i d x).
      * rewrite (session_raise _ _ _ _ (returning_raise _ _ _ _ _ E)).
        now apply (update_refused_null u w i d x).
      * simpl in E. rewrite (perform_ok _ _ _ _ _ E).
        now apply (update_stored u w i d x).
    + rewrite (perform_raise _ _ _ _ (proj1 (guarded_not_found i u w _ E) d)).
      apply (key_not_found u w _ i); [reflexivity | exact Hr|].
      intros x Ho. rewrite (guard_owned _ _ _ _ Ho) in E. discriminate.
    + rewrite (perform_raise _ _ _ _ (proj1 (guarded_not_found i u w _ E) d)).
      now apply (key_out_of_range u w _ i).
  - destruct (guard_cases i u w) as [(x & Ho & _)|[[Hr E]|[Hr E]]].
    + rewrite (perform_ok _ _ _ _ _ (delete_task_ok i u w x Ho)).
      now apply (deleted u w i x).
    + destruct (guarded_not_found i u w _ E) as (_ & E2 & _).
      rewrite (perform_raise _ _ _ _ E2).
      apply (key_not_found u w _ i); [reflexivity | exact Hr|].
      intros x Ho. rewrite (guard_owned _ _ _ _ Ho) in E. discriminate.
    + destruct (guarded_not_found i u w _ E) as (_ & E2 & _).
      rewrite (perform_raise _ _ _ _ E2). now apply (key_out_of_range u w _ i).
  - destruct (guard_cases i u w) as [(x & Ho & _)|[[Hr E]|[Hr E]]].
    + pose proof (complete_task_ok i u w x Ho) as E. simpl in E.
      rewrite (perform_ok _ _ _ _ _ E). now apply (completed u w i x).
    + destruct (guarded_not_found i u w _ E) as (_ & _ & E3 & _).
      rewrite (perform_raise _ _ _ _ E3).
      apply (key_not_found u w _ i); [reflexivity | exact Hr|].
      intros x Ho. rewrite (guard_owned _ _ _ _ Ho) in E. discriminate.
    + destruct (guarded_not_found i u w _ E) as (_ & _ & E3 & _).
      rewrite (perform_raise _ _ _ _ E3). now apply (key_out_of_range u w _ i).
  - destruct (guard_cases i u w) as [(x & Ho & _)|[[Hr E]|[Hr E]]].
    + pose proof (uncomplete_task_ok i u w x Ho) as E. simpl in E.
      rewrite (perform_ok _ _ _ _ _ E). now apply (uncompleted u w i x).
    + destruct (guarded_not_found i u w _ E) as (_ & _ & _ & E4).
      rewrite (perform_raise _ _ _ _ E4).
      apply (key_not_found u w _ i); [reflexivity | exact Hr|].
      intros x Ho. rewrite (guard_owned _ _ _ _ Ho) in E. discriminate.
    + destruct (guarded_not_found i u w _ E) as (_ & _ & _ & E4).
      rewrite (perform_raise _ _ _ _ E4). now apply (key_out_of_range u w _ i).
Qed.

Lemma update_written_fields i d u w x :
  owns w u i x ->
  Task.id (Task.set_updated_at (clock w (ticks w)) (apply_update_data (stripped d) x))
  = Some i
  /\ Task.user_id (Task.set_updated_at (clock w (ticks w))
                     (apply_update_data (stripped d) x)) = u.
Proof.
  intros Ho. simpl. destruct (apply_update_data_fixed (stripped d) x) as (-> & -> & _).
  split; [apply (owns_id _ _ _ _ Ho) | apply Ho].
Qed.

(** What a request does: its effect on the table is one [u] is allowed,
    and every task in its response belongs to [u]. *)
Lemma perform_spec op u w :
  db_wf (db w) ->
  effect u (db w) (db (perform op u w).2)
  /\ (forall l, (perform op u w).1 = inr l -> Forall (fun t => Task.user_id t = u) l).
Proof.
  intros Hwf. destruct (perform_outcome op u w Hwf); simpl;
    try (split; [constructor | discriminate]).
  - split; [apply effect_insert; [reflexivity | reflexivity | eauto]|].
    intros l [= <-]. repeat constructor.
  - split; [constructor|].
    intros l [= <-]. apply Forall_forall. intros t Ht.
    apply list_elem_of_In in Ht.
    apply (Permutation_in _ (order_by_perm _)) in Ht.
    apply filter_In in Ht as [_ Ht]. now apply owned_by_true.
  - split; [constructor|]. intros l [= <-]. constructor; [apply H | constructor].
  - destruct (update_written_fields i d u w x H) as [Hid Hu]. split.
    + apply (effect_overwrite u (db w) i x);
        [now apply (owns_find w u) | apply H | exact Hid | exact Hu|].
      simpl. apply completed_after_update; [|assumption].
      apply (stored_row_ok w i x Hwf (proj1 H)).
    + intros l [= <-]. constructor; [exact Hu | constructor].
  - split; [apply (effect_delete u (db w) i x); [now apply (owns_find w u) | apply H]|].
    intros l [= <-]. constructor.
  - split.
    + apply (effect_overwrite u (db w) i x);
        [now apply (owns_find w u) | apply H | apply (owns_id _ _ _ _ H) | apply H | simpl; eauto].
    + intros l [= <-]. constructor; [apply H | constructor].
  - split.
    + apply (effect_overwrite u (db w) i x);
        [now apply (owns_find w u) | apply H | apply (owns_id _ _ _ _ H) | apply H | simpl; eauto].
    + intros l [= <-]. constructor; [apply H | constructor].
Qed.

Lemma perform_wf op u w : db_wf (db w) -> db_wf (db (perform op u w).2).
Proof. intros Hwf. eapply effect_wf; [exact Hwf | now apply perform_spec]. Qed.

(** The empty table satisfies the constraints, and so does every table a
    history of requests leads to. *)
Lemma world_empty_wf c : db_wf (db (world_empty c)).
Proof. split; simpl; constructor. Qed.

Lemma run_invariant a i h w :
  db_wf (db w) -> key_of a i (db w) ->
  db_wf (db (run h w)) /\ key_of a i (db (run h w)).
Proof.
  revert w. induction h as [|[u op] h IH]; intros w Hwf Hk; simpl; [now split|].
  apply IH.
  - now apply perform_wf.
  - eapply effect_key_of; [exact Hwf | exact Hk | now apply perform_spec].
Qed.

(** The task a create returns holds its key for its creator. *)
Lemma sequence_open_in_range d : sequence_open d = true -> in_int32 (next_id d) = true.
Proof. unfold sequence_open, in_int32. lia. Qed.

Lemma create_key_of task_data a w t w1 i :
  db_wf (db w) ->
  perform (Create task_data) a w = (inr [t], w1) -> Task.id t = Some i ->
  db_wf (db w1) /\ key_of a i (db w1) /\ In t (rows (db w1)) /\ Task.user_id t = a
  /\ in_int32 i = true.
Proof.
  intros Hwf E Hid.
  pose proof (perform_wf (Create task_data) a w Hwf) as Hwf1.
  rewrite E in Hwf1. simpl in Hwf1. split; [exact Hwf1|].
  pose proof (perform_outcome (Create task_data) a w Hwf) as Ho. rewrite E in Ho.
  inversion Ho as [| |d' Hok Hst Hd Hr| | | | | | | | | | |]; subst.
  simpl in Hid. injection Hid as <-.
  split_and!.
  - split; simpl; [lia|]. intros r Hr Hri.
    apply in_app_or in Hr as [Hr|[<-|[]]]; [|reflexivity].
    exfalso. now apply (fresh_key_not_stored (db w) r Hwf).
  - simpl. apply in_or_app. right. now left.
  - reflexivity.
  - apply sequence_open_in_range, Hst.
Qed.

(** Under a key of [a] within the range of the key column, the guard answers
    every other identity with the not-found error. *)
Lemma guard_other_identity a b i w :
  key_of a i (db w) -> a <> b -> in_int32 i = true ->
  get_task_with_ownership i b w = (inl (NotFoundError "Task not found"), w).
Proof.
  intros [_ Hown] Hab Hr.
  destruct (guard_cases i b w) as [(x & [Hs Hu] & _)|[[_ E]|[Hn _]]];
    [|exact E|congruence].
  exfalso. apply stored_has_id in Hs as [Hin Hid]. apply Hab.
  rewrite <- Hu. symmetry. now apply Hown.
Qed.

(** C1: for a table that satisfies its constraints and any operation run
    for identity [X], every task in the response belongs to [X], the rows
    of all other identities are after the operation what they were before
    it, and the constraints still hold.  And once identity [A] has created
    a task, then after any history of further requests by anyone, every
    update, delete, complete and uncomplete of that task by an identity
    [B] other than [A] ends in the not-found error and leaves the world
    as it is, and no task with its key is in the list [B] gets. *)
Theorem data_isolation op X w task_data A B t w1 i h d :
  db_wf (db w) ->
  A <> B ->
  perform (Create task_data) A w = (inr [t], w1) -> Task.id t = Some i ->
  (forall l, (perform op X w).1 = inr l -> Forall (fun r => Task.user_id r = X) l)
  /\ others X (db (perform op X w).2) = others X (db w)
  /\ db_wf (db (perform op X w).2)
  /\ Task.user_id t = A
  /\ perform (Update i d) B (run h w1) = (inl (NotFoundError "Task not found"), run h w1)
  /\ perform (Delete i) B (run h w1) = (inl (NotFoundError "Task not found"), run h w1)
  /\ perform (Complete i) B (run h w1) = (inl (NotFoundError "Task not found"), run h w1)
  /\ perform (Uncomplete i) B (run h w1) = (inl (NotFoundError "Task not found"), run h w1)
  /\ exists l, perform ListAll B (run h w1) = (inr l, run h w1)
               /\ Forall (fun r => Task.id r <> Some i /\ Task.user_id r = B) l.
Proof.
  intros Hwf Hab Hc Hid.
  destruct (perform_spec op X w Hwf) as [He Hret].
  destruct (create_key_of task_data A w t w1 i Hwf Hc Hid) as (Hwf1 & Hk1 & _ & Hu & Hrange).
  destruct (run_invariant A i h w1 Hwf1 Hk1) as [Hwf2 Hk2].
  pose proof (guard_other_identity A B i (run h w1) Hk2 Hab Hrange) as Hg.
  split_and!.
  - exact Hret.
  - now apply effect_others.
  - now apply (effect_wf X (db w)).
  - exact Hu.
  - apply perform_raise, (guarded_not_found i B _ _ Hg).
  - apply perform_raise, (guarded_not_found i B _ _ Hg).
  - apply perform_raise, (guarded_not_found i B _ _ Hg).
  - apply perform_raise, (guarded_not_found i B _ _ Hg).
  - eexists. split; [apply list_tasks_eq|].
    destruct (perform_spec ListAll B (run h w1) Hwf2) as [_ Hl].
    unfold perform in Hl. rewrite list_tasks_eq in Hl. specialize (Hl _ eq_refl).
    rewrite Forall_forall in *. intros r Hr. split; [|now apply Hl].
    intros Hri. apply Hab. rewrite <- (Hl r Hr). symmetry.
    apply (proj2 Hk2); [|exact Hri].
    apply list_elem_of_In in Hr. apply (Permutation_in _ (order_by_perm _)) in Hr.
    now apply filter_In in Hr as [Hr _].
Qed.

Lemma data_isolation_witness :
  let h := [("u2", Create (mkTaskCreate "Buy eggs" None)); ("u1", Complete 1)] in
  perform (Delete 1) "u2" (run h world_milk)
  = (inl (NotFoundError "Task not found"), run h world_milk)
  /\ exists l, perform ListAll "u2" (run h world_milk) = (inr l, run h world_milk)
               /\ Forall (fun r => Task.id r <> Some 1 /\ Task.user_id r = "u2") l.
Proof.
  intros h.
  destruct (data_isolation ListAll "u1" (world_empty clock_running)
              (mkTaskCreate "Buy milk" None) "u1" "u2" task_milk world_milk 1 h
              (mkTaskUpdate Unset Unset (Given (Some true))))
    as (_ & _ & _ & _ & _ & H & _ & _ & L).
  - split; simpl; constructor.
  - discriminate.
  - vm_compute. reflexivity.
  - reflexivity.
  - split; [exact H | exact L].
Defined.

(** ** Steps of the world *)

Lemma world_eta w : mkWorld (db w) (clock w) (ticks w) = w.
Proof. now destruct w. Qed.

Lemma step_same u w : step u w w.
Proof. apply step_idle; [reflexivity | reflexivity | lia]. Qed.

Lemma title_after_apply d x :
  update_title_ok d ->
  Task.title (apply_update_data (stripped d) x) = Task.title x
  \/ exists s, title_ok s /\ Task.title (apply_update_data (stripped d) x) = PyStr.strip s.
Proof.
  unfold update_title_ok. destruct (update_title d) as [|[s|]] eqn:E; intros Hok.
  - left. now apply (apply_update_data_unset d x).
  - right. exists s. split; [exact Hok | now apply title_after_update].
  - tauto.
Qed.

Lemma in_after_write i x y w :
  stored w i = Some x -> Task.id y = Some i -> In y (rows (db (after_write i y w))).
Proof.
  intros Hs Hid. pose proof (stored_after_write i x y w Hs Hid) as H.
  now apply stored_has_id in H.
Qed.

(** Every request is one step, and the tasks of its response are rows of
    the table it leaves. *)
Lemma perform_step op u w :
  db_wf (db w) ->
  step u w (perform op u w).2
  /\ (forall l, (perform op u w).1 = inr l ->
        forall t, In t l -> In t (rows (db (perform op u w).2))).
Proof.
  intros Hwf. destruct (perform_outcome op u w Hwf); simpl;
    try (split; [apply step_same | discriminate]);
    try (split; [apply step_idle; simpl; [reflexivity | reflexivity | lia]
                | discriminate]).
  - split; [now apply step_create|].
    intros l [= <-] t [<-|[]]. apply in_or_app. right. now left.
  - split; [apply step_same|].
    intros l [= <-] t Ht. apply (Permutation_in _ (order_by_perm _)) in Ht.
    now apply filter_In in Ht as [Ht _].
  - split; [apply step_same|].
    intros l [= <-] t [<-|[]]. destruct H as [Hs _]. now apply stored_has_id in Hs.
  - destruct (apply_update_data_fixed (stripped d) x) as (Hid & Hu & Hca & Hua).
    assert (Task.id (apply_update_data (stripped d) x) = Some i) as Hid'
      by (rewrite Hid; apply (owns_id _ _ _ _ H)).
    split.
    + apply (step_write u w i x); try assumption.
      * rewrite Hu. apply H.
      * now apply title_after_apply.
      * apply completed_after_update; [|assumption].
        apply (stored_row_ok w i x Hwf (proj1 H)).
    + intros l [= <-] t [<-|[]]. apply (in_after_write i x); [apply H | exact Hid'].
  - split; [now apply (step_delete u w i x)|]. intros l [= <-] t [].
  - split.
    + apply (step_write u w i x); simpl; try reflexivity;
        [exact H | apply (owns_id _ _ _ _ H) | apply H | now left | eauto].
    + intros l [= <-] t [<-|[]].
      apply (in_after_write i x); [apply H | apply (owns_id _ _ _ _ H)].
  - split.
    + apply (step_write u w i x); simpl; try reflexivity;
        [exact H | apply (owns_id _ _ _ _ H) | apply H | now left | eauto].
    + intros l [= <-] t [<-|[]].
      apply (in_after_write i x); [apply H | apply (owns_id _ _ _ _ H)].
Qed.

(** A step has one of the effects of its identity on the table. *)
Lemma step_effect u w w' : step u w w' -> effect u (db w) (db w').
Proof.
  intros [w0 Hd _ _|s desc Hok|i x y Ho Hid Hu _ _ _ Hc|i x Ho].
  - rewrite Hd. constructor.
  - apply effect_insert; [reflexivity | reflexivity | eauto].
  - apply (effect_overwrite u (db w) i x); simpl; try assumption;
      [now apply (owns_find w u) | apply Ho].
  - apply (effect_delete u (db w) i x); [now apply (owns_find w u) | apply Ho].
Qed.

Lemma step_clock u w w' :
  step u w w' -> clock w' = clock w /\ (ticks w <= ticks w')%nat.
Proof.
  intros [w0 _ Hc Ht|s desc _|i x y _ _ _ _ _ _ _|i x _]; simpl;
    split; try reflexivity; try assumption; lia.
Qed.

(** What every step keeps, every history keeps. *)
Lemma run_preserves (P : World -> Prop) :
  (forall u w w', db_wf (db w) -> P w -> step u w w' -> P w') ->
  forall h w, db_wf (db w) -> P w -> db_wf (db (run h w)) /\ P (run h w).
Proof.
  intros Hstep h. induction h as [|[u op] h IH]; intros w Hwf HP; simpl; [now split|].
  destruct (perform_step op u w Hwf) as [Hs _]. apply IH.
  - apply (effect_wf u (db w)); [exact Hwf | now apply step_effect].
  - now apply (Hstep u w).
Qed.

(** ** How requests fail *)

Lemma returning_session {A} (f : A -> list Task.t) (m : M A) w :
  returning f (get_session m) w = get_session (returning f m) w.
Proof.
  unfold returning, get_session, mbind, M_bind, mret, M_ret.
  destruct (m w) as [[e|a] w0]; reflexivity.
Qed.

Lemma returning_at {A} (f : A -> list Task.t) (m m' : M A) w :
  m w = m' w -> returning f m w = returning f m' w.
Proof. intros H. unfold returning, mbind, M_bind. now rewrite H. Qed.

Lemma title_field_ok_spec s :
  title_field_ok s = true <-> (1 <= PyStr.len s <= 200)%nat.
Proof. unfold title_field_ok. rewrite andb_true_iff, !Nat.leb_le. tauto. Qed.

(** A body that passes its schema reaches the handler. *)
Lemma request_passes op u w :
  body_ok op = true -> request op u w = perform op u w.
Proof.
  destruct op as [[s desc]| |i d|i|i|i]; simpl; intros Hb; try reflexivity.
  - apply title_field_ok_spec in Hb. unfold perform.
    rewrite <- returning_session. apply returning_at.
    destruct (check_title_field_cases s w) as [[_ E]|[Hn _]]; [|tauto].
    apply (route_passes _ _ _ E).
  - unfold perform. rewrite <- returning_session. apply returning_at.
    apply route_passes. unfold validate_TaskUpdate.
    destruct (update_title d) as [|[s|]]; try reflexivity.
    apply title_field_ok_spec in Hb.
    destruct (check_title_field_cases s w) as [[_ E]|[Hn _]]; [exact E | tauto].
Qed.

(** A body that fails its schema is answered before the handler is called. *)
Lemma request_refused op u w :
  body_ok op = false ->
  exists c, request op u w = (inl (RequestValidationError "title" c), w).
Proof.
  destruct op as [[s desc]| |i d|i|i|i]; simpl; intros Hb; try discriminate.
  - destruct (check_title_field_cases s w) as [[Hl _]|[_ [c E]]].
    + apply title_field_ok_spec in Hl. congruence.
    + exists c. apply returning_raise. apply (route_refuses _ _ _ _ E).
  - destruct (update_title d) as [|[s|]] eqn:Et; try discriminate.
    destruct (check_title_field_cases s w) as [[Hl _]|[_ [c E]]].
    + apply title_field_ok_spec in Hl. congruence.
    + exists c. apply returning_raise. apply route_refuses.
      unfold validate_TaskUpdate. now rewrite Et.
Qed.

(** X1: how a request served by the router fails.  The table and the clock
    function are what they were.  A body whose title fails the schema
    (no character, or more than 200) is answered 422 before the handler
    runs.  Otherwise: create fails with the handler's validation failure
    (400) when nothing is left of the title after the trim, or with the
    database's refusal when the row cannot be stored; delete, complete
    and uncomplete fail with the database's refusal when the key is
    outside the range of the key column and with the not-found error
    otherwise; update fails like them, or with the handler's validation
    failure (400) when the title is not acceptable, or with the
    database's refusal when the body sets [is_completed] to [null] or
    carries a NUL character.  Only the database's refusals of a row move
    the clock.  Nothing is stated about the list. *)
Theorem failure_modes op u w e w' :
  db_wf (db w) ->
  request op u w = (inl e, w') ->
  db w' = db w /\ clock w' = clock w
  /\ ((body_ok op = false /\ is_validation_failure e = true
       /\ status_code e = 422 /\ w' = w)
      \/ (body_ok op = true
          /\ match op with
             | Create d =>
                 (is_validation_failure e = true /\ status_code e = 400
                  /\ ~ title_ok (create_title d) /\ w' = w)
                 \/ ((exists m, e = DBAPIError m) /\ title_ok (create_title d)
                     /\ ~ create_storable w u (create_title d) (create_description d))
             | ListAll => True
             | Update i d =>
                 (e = DBAPIError "value out of int32 range"
                  /\ in_int32 i = false /\ w' = w)
                 \/ (e = NotFoundError "Task not found"
                     /\ in_int32 i = true /\ w' = w)
                 \/ (is_validation_failure e = true /\ status_code e = 400
                     /\ ~ update_title_ok d /\ w' = w)
                 \/ (e = IntegrityError "is_completed"
                     /\ update_is_completed d = Given None)
                 \/ (e = DBAPIError "invalid byte sequence for encoding UTF8: 0x00"
                     /\ ~ update_storable d)
             | Delete i | Complete i | Uncomplete i =>
                 (e = DBAPIError "value out of int32 range"
                  /\ in_int32 i = false /\ w' = w)
                 \/ (e = NotFoundError "Task not found"
                     /\ in_int32 i = true /\ w' = w)
             end)).
Proof.
  intros Hwf E. destruct (body_ok op) eqn:Hb.
  2:{ destruct (request_refused op u w Hb) as [c Ec]. rewrite Ec in E.
      injection E as <- <-. split; [reflexivity|]. split; [reflexivity|].
      left. split_and!; reflexivity. }
  rewrite (request_passes op u w Hb) in E.
  pose proof (perform_outcome op u w Hwf) as Ho. rewrite E in Ho.
  inversion Ho; subst; simpl; (split; [reflexivity|]); (split; [reflexivity|]);
    right; (split; [reflexivity|]).
  - left. auto.
  - right. eauto.
  - destruct op; try discriminate; auto; simpl in *; simplify_eq; auto.
  - destruct op; try discriminate; auto; simpl in *; simplify_eq; auto.
  - right. right. left. auto.
  - right. right. right. right. split; [reflexivity|].
    intros Hst. rewrite (sends_nul_update d x Hst) in *. discriminate.
  - right. right. right. left. auto.
Qed.

Lemma failure_modes_witness :
  db (request (Delete 2147483648) "u1" world_milk).2 = db world_milk.
Proof.
  refine (proj1 (failure_modes (Delete 2147483648) "u1" world_milk
                   (DBAPIError "value out of int32 range") world_milk _ _)).
  - vm_compute. split; [|repeat constructor; eauto].
    apply NoDup_cons. split; [apply not_elem_of_nil | apply NoDup_nil_2].
  - vm_compute. reflexivity.
Defined.

(** ** Toggles and updates *)

(** X2: complete is the update with body [{"is_completed": true}] and
    uncomplete the update with body [{"is_completed": false}]: in every
    world and for every key and identity the two handlers return the
    same result and leave the same world. *)
Theorem toggle_is_update i u w :
  complete_task i u w
  = update_task i (mkTaskUpdate Unset Unset (Given (Some true))) u w
  /\ uncomplete_task i u w
     = update_task i (mkTaskUpdate Unset Unset (Given (Some false))) u w.
Proof.
  destruct (guard_returns_or_raises i u w) as [(x & Ho & _)|[eg E]].
  - pose proof (update_task_ok i (mkTaskUpdate Unset Unset (Given (Some true)))
                  u w x Ho eq_refl I
                  (sends_nul_update (mkTaskUpdate Unset Unset (Given (Some true))) x
                     (conj I I))
                  (ex_intro _ true eq_refl)) as Et.
    pose proof (update_task_ok i (mkTaskUpdate Unset Unset (Given (Some false)))
                  u w x Ho eq_refl I
                  (sends_nul_update (mkTaskUpdate Unset Unset (Given (Some false))) x
                     (conj I I))
                  (ex_intro _ false eq_refl)) as Ef.
    simpl in Et, Ef.
    rewrite (complete_task_ok i u w x Ho), (uncomplete_task_ok i u w x Ho), Et, Ef.
    split; reflexivity.
  - destruct (guarded_not_found i u w eg E) as (E1 & _ & E3 & E4).
    now rewrite E3, E4, !E1.
Qed.

Lemma apply_update_data_again d x t :
  apply_update_data d (Task.set_updated_at t (apply_update_data d x))
  = Task.set_updated_at t (apply_update_data d x).
Proof.
  destruct d as [[|[s|]] [|de] [|co]], x; reflexivity.
Qed.

(** What an update that was accepted did. *)
Lemma update_session_succeeded i d u w x1 w1 :
  update_data_empty d = false ->
  get_session (update_task i d u) w = (inr x1, w1) ->
  exists x, owns w u i x /\ update_title_ok d
    /\ is_Some (Task.is_completed (apply_update_data (stripped d) x))
    /\ x1 = Task.set_updated_at (clock w (ticks w)) (apply_update_data (stripped d) x)
    /\ w1 = after_write i x1 w.
Proof.
  intros He E.
  destruct (guard_returns_or_raises i u w) as [(x & Ho & _)|[eg Eg]].
  2:{ rewrite (session_raise _ _ _ _ (proj1 (guarded_not_found i u w eg Eg) d)) in E.
      discriminate. }
  exists x. split; [exact Ho|].
  destruct (decide (update_title_ok d)) as [Hok|Hbad].
  2:{ destruct (update_task_rejected i d u w x Ho He Hbad) as (e & Ee & _).
      rewrite (session_raise _ _ _ _ Ee) in E. discriminate. }
  split; [exact Hok|].
  pose proof (update_task_flush i d u w x Ho He Hok) as Ef.
  pose proof (stamp_and_flush _ i x w (owns_find _ _ _ _ Ho)
                (apply_update_data_id i d u w x Ho)) as Es.
  rewrite <- Ef in Es.
  destruct (sends_nul (Some x) (apply_update_data (stripped d) x)).
  { rewrite (session_raise _ _ _ _ Es) in E. discriminate. }
  destruct (Task.is_completed (apply_update_data (stripped d) x)) as [b|].
  - rewrite (session_ok _ _ _ _ Es) in E. injection E as <- <-.
    split_and!; eauto.
  - rewrite (session_raise _ _ _ _ Es) in E. discriminate.
Qed.

(** X3: an update with at least one field that was accepted is accepted
    again when it is sent a second time, and changes nothing but
    [updated_at]: the task it returns is the first result with the new
    clock reading, and that task is what is stored. *)
Theorem update_repeat i d u w x1 w1 :
  update_data_empty d = false ->
  get_session (update_task i d u) w = (inr x1, w1) ->
  exists x2 w2,
    get_session (update_task i d u) w1 = (inr x2, w2)
    /\ x2 = Task.set_updated_at (clock w1 (ticks w1)) x1
    /\ stored w2 i = Some x2.
Proof.
  intros He E.
  destruct (update_session_succeeded i d u w x1 w1 He E)
    as (x & Ho & Hok & Hc & Hx1 & Hw1).
  destruct (apply_update_data_fixed (stripped d) x) as (Hid & Hu & _).
  assert (Task.id x1 = Some i) as Hid1.
  { rewrite Hx1. simpl. rewrite Hid. apply (owns_id _ _ _ _ Ho). }
  assert (owns w1 u i x1) as Ho1.
  { rewrite Hw1. apply (owns_after_write i u x); [exact Ho | exact Hid1|].
    rewrite Hx1. simpl. rewrite Hu. apply Ho. }
  assert (apply_update_data (stripped d) x1 = x1) as Hsame
    by (rewrite Hx1; apply apply_update_data_again).
  assert (is_Some (Task.is_completed (apply_update_data (stripped d) x1))) as Hc1
    by (rewrite Hsame, Hx1; exact Hc).
  assert (sends_nul (Some x1) (apply_update_data (stripped d) x1) = false) as Hn1
    by (rewrite Hsame; now apply sends_nul_same_text).
  pose proof (update_task_ok i d u w1 x1 Ho1 He Hok Hn1 Hc1) as E'.
  simpl in E'. rewrite Hsame in E'.
  do 2 eexists. split; [apply session_ok, E'|]. split; [reflexivity|].
  apply (stored_after_write i x1); [apply Ho1|]. exact Hid1.
Qed.

Lemma update_repeat_witness :
  exists x2 w2,
    get_session (update_task 1 (mkTaskUpdate (Given (Some " Buy oat milk ")) Unset Unset) "u1")
      (after_write 1 (Task.set_updated_at 1002 (Task.set_title "Buy oat milk" task_milk))
         world_milk)
    = (inr x2, w2)
    /\ x2 = Task.set_updated_at 1003
              (Task.set_updated_at 1002 (Task.set_title "Buy oat milk" task_milk)).
Proof.
  destruct (update_repeat 1 (mkTaskUpdate (Given (Some " Buy oat milk ")) Unset Unset)
              "u1" world_milk
              (Task.set_updated_at 1002 (Task.set_title "Buy oat milk" task_milk))
              (after_write 1 (Task.set_updated_at 1002
                                (Task.set_title "Buy oat milk" task_milk)) world_milk))
    as (x2 & w2 & E2 & H & _).
  - reflexivity.
  - vm_compute. reflexivity.
  - exists x2, w2. split; [exact E2 | exact H].
Defined.

(** ** One key at a time *)

Lemma find_overwrite_other i j y l :
  Task.id y = Some i -> i <> j ->
  List.find (has_id j) (map (fun r => if has_id i r then y else r) l)
  = List.find (has_id j) l.
Proof.
  intros Hy Hij. induction l as [|r l IH]; simpl; [reflexivity|].
  rewrite IH. destruct (has_id i r) eqn:E; [|reflexivity].
  apply has_id_true in E.
  assert (has_id j y = false) as ->
    by (apply not_true_is_false; rewrite has_id_true; congruence).
  assert (has_id j r = false) as ->
    by (apply not_true_is_false; rewrite has_id_true; congruence).
  reflexivity.
Qed.

Lemma find_delete_other i j l :
  i <> j ->
  List.find (has_id j) (List.filter (fun r => negb (has_id i r)) l)
  = List.find (has_id j) l.
Proof.
  intros Hij. induction l as [|r l IH]; simpl; [reflexivity|].
  destruct (has_id i r) eqn:E; simpl.
  - apply has_id_true in E.
    assert (has_id j r = false) as ->
      by (apply not_true_is_false; rewrite has_id_true; congruence).
    exact IH.
  - now rewrite IH.
Qed.

Lemma find_app_some {A} (p : A -> bool) l l' x :
  List.find p l = Some x -> List.find p (l ++ l') = Some x.
Proof.
  induction l as [|a l IH]; simpl; [discriminate|].
  destruct (p a); auto.
Qed.

(** X4: an operation aimed at one key leaves the row of every other key
    as it is stored, whoever sends it and however it ends; a creation and
    a listing leave every stored row as it is. *)
Theorem other_keys_untouched op u w j x :
  db_wf (db w) ->
  target op <> Some j ->
  stored w j = Some x ->
  stored (perform op u w).2 j = Some x.
Proof.
  intros Hwf Ht Hx. apply stored_find in Hx as [Hr Hx].
  rewrite stored_in_range by exact Hr.
  destruct (perform_outcome op u w Hwf); simpl in *; try exact Hx.
  - now apply find_app_some.
  - rewrite find_overwrite_other; [exact Hx| |congruence]. simpl.
    rewrite (proj1 (apply_update_data_fixed (stripped d) x0)).
    apply (owns_id _ _ _ _ H).
  - rewrite find_delete_other; [exact Hx | congruence].
  - rewrite find_overwrite_other; [exact Hx | apply (owns_id _ _ _ _ H) | congruence].
  - rewrite find_overwrite_other; [exact Hx | apply (owns_id _ _ _ _ H) | congruence].
Qed.

Lemma other_keys_untouched_witness :
  stored (perform (Complete 1) "u1" world_three).2 2 = Some task_t2.
Proof.
  apply (other_keys_untouched (Complete 1) "u1" world_three 2 task_t2).
  - apply (bool_decide_eq_true_1 (db_wf (db world_three))). vm_compute. reflexivity.
  - discriminate.
  - reflexivity.
Defined.

(** ** Deleted keys *)

Lemma step_key_retired u w w' i :
  db_wf (db w) -> key_retired i (db w) -> step u w w' -> key_retired i (db w').
Proof.
  intros Hwf [Hlt Hno] Hs.
  destruct Hs as [w0 Hd _ _|s desc Hok|j x y Ho Hid Hu _ _ _ Hc|j x Ho]; simpl.
  - now rewrite Hd.
  - split; simpl; [lia|]. intros r Hr Hri. apply in_app_or in Hr as [Hr|[<-|[]]].
    + now apply (Hno r).
    + simpl in Hri. injection Hri as Hri. lia.
  - split; simpl; [exact Hlt|]. intros r Hr Hri.
    apply in_map_iff in Hr as (r0 & Hr0 & Hin).
    destruct (has_id j r0) eqn:E.
    + apply has_id_true in E. apply (Hno r0 Hin). subst r. simpl in Hri. congruence.
    + subst r0. now apply (Hno r).
  - split; simpl; [exact Hlt|]. intros r Hr Hri.
    apply filter_In in Hr as [Hr _]. now apply (Hno r).
Qed.

Lemma key_retired_stored i w : key_retired i (db w) -> stored w i = None.
Proof.
  intros [_ Hno]. unfold stored. destruct (in_int32 i); [|reflexivity].
  destruct (List.find (has_id i) (rows (db w))) as [x|] eqn:E; [|reflexivity].
  apply find_has_id in E as [Hin Hid]. now destruct (Hno x Hin).
Qed.

(** X5: delete is for good.  When the owner deletes a stored task, the
    request succeeds with an empty response and the key leads to no row;
    after any history of further requests by anyone the key still leads to
    no row, every update, delete, complete and uncomplete of it ends in
    the not-found error, and no task that a later request returns, a newly
    created one included, carries the key. *)
Theorem delete_is_permanent i u w x h b d op :
  db_wf (db w) -> owns w u i x ->
  exists w1,
    perform (Delete i) u w = (inr [], w1)
    /\ stored w1 i = None
    /\ stored (run h w1) i = None
    /\ perform (Update i d) b (run h w1)
       = (inl (NotFoundError "Task not found"), run h w1)
    /\ perform (Delete i) b (run h w1)
       = (inl (NotFoundError "Task not found"), run h w1)
    /\ perform (Complete i) b (run h w1)
       = (inl (NotFoundError "Task not found"), run h w1)
    /\ perform (Uncomplete i) b (run h w1)
       = (inl (NotFoundError "Task not found"), run h w1)
    /\ forall l, (perform op b (run h w1)).1 = inr l ->
                 Forall (fun t => Task.id t <> Some i) l.
Proof.
  intros Hwf Ho.
  pose proof (perform_ok (fun _ => []) _ _ _ _ (delete_task_ok i u w x Ho)) as E.
  eexists. split; [exact E|].
  set (w1 := with_db (mkDb (List.filter (fun r => negb (has_id i r)) (rows (db w)))
                           (next_id (db w))) w) in *.
  assert (db_wf (db w1)) as Hwf1.
  { apply (effect_wf u (db w)); [exact Hwf|].
    apply (effect_delete u (db w) i x); [now apply (owns_find w u) | apply Ho]. }
  assert (key_retired i (db w1)) as Hk1.
  { split; simpl.
    - apply (row_ok_key _ x); [apply (stored_row_ok w i x Hwf), Ho | apply (owns_id _ _ _ _ Ho)].
    - intros r Hr Hri. apply filter_In in Hr as [_ Hr].
      apply has_id_true in Hri. now rewrite Hri in Hr. }
  destruct (run_preserves (fun w => key_retired i (db w))
              (fun u w w' Hw Hk Hs => step_key_retired u w w' i Hw Hk Hs)
              h w1 Hwf1 Hk1) as [Hwf2 Hk2].
  pose proof (key_retired_stored i _ Hk2) as Hs2.
  pose proof (guard_absent i b _ (owns_in_range _ _ _ _ Ho) Hs2) as Hg.
  split; [now apply key_retired_stored|]. split; [exact Hs2|].
  split_and!; try (apply perform_raise, (guarded_not_found i b _ _ Hg)).
  intros l Hl. destruct (perform_step op b (run h w1) Hwf2) as [Hs Hin].
  apply Forall_forall. intros t Ht. apply list_elem_of_In in Ht.
  apply (step_key_retired b _ _ i Hwf2 Hk2 Hs). now apply (Hin l).
Qed.

Lemma delete_is_permanent_witness :
  exists w1,
    perform (Delete 1) "u1" world_milk = (inr [], w1)
    /\ perform (Complete 1) "u1" (run history_sample w1)
       = (inl (NotFoundError "Task not found"), run history_sample w1).
Proof.
  destruct (delete_is_permanent 1 "u1" world_milk task_milk history_sample "u1"
              (mkTaskUpdate Unset Unset Unset) ListAll)
    as (w1 & E & _ & _ & _ & _ & H & _).
  - apply (bool_decide_eq_true_1 (db_wf (db world_milk))). vm_compute. reflexivity.
  - split; reflexivity.
  - exists w1. split; [exact E | exact H].
Defined.

(** ** Keys, owners and creation times *)

Lemma step_same_origin u w w' i x :
  db_wf (db w) -> same_origin i x (db w) -> step u w w' -> same_origin i x (db w').
Proof.
  intros Hwf [Hlt Hsame] Hs.
  destruct Hs as [w0 Hd _ _|s desc Hok|j x0 y Ho Hid Hu Hca _ _ Hc|j x0 Ho]; simpl.
  - now rewrite Hd.
  - split; simpl; [lia|]. intros r Hr Hri. apply in_app_or in Hr as [Hr|[<-|[]]].
    + now apply Hsame.
    + simpl in Hri. injection Hri as Hri. lia.
  - split; simpl; [exact Hlt|]. intros r Hr Hri.
    apply in_map_iff in Hr as (r0 & Hr0 & Hin).
    destruct (has_id j r0) eqn:E.
    + subst r. simpl in *. rewrite Hid in Hri. injection Hri as ->.
      destruct Ho as [Hst Hux]. apply stored_has_id in Hst as [Hx0 Hx0i].
      destruct (Hsame x0 Hx0 Hx0i) as [Hu0 Hc0]. split; congruence.
    + subst r0. now apply Hsame.
  - split; simpl; [exact Hlt|]. intros r Hr Hri.
    apply filter_In in Hr as [Hr _]. now apply Hsame.
Qed.

(** X6: the key, the owner and the creation time of a stored task are
    fixed: whatever requests follow, by whichever identities, the row the
    key leads to, if there still is one, has the same [id], [user_id] and
    [created_at]. *)
Theorem origin_is_fixed i x h w y :
  db_wf (db w) -> stored w i = Some x -> stored (run h w) i = Some y ->
  Task.id y = Task.id x /\ Task.user_id y = Task.user_id x
  /\ Task.created_at y = Task.created_at x.
Proof.
  intros Hwf Hx Hy.
  assert (same_origin i x (db w)) as H0.
  { split.
    - apply (row_ok_key _ x); [now apply (stored_row_ok w i) | now apply stored_has_id in Hx].
    - intros r Hr Hri. apply has_id_true in Hri.
      now rewrite (key_unique (db w) i x r Hwf (proj2 (stored_find w i x Hx)) Hr Hri). }
  destruct (run_preserves (fun w => same_origin i x (db w))
              (fun u w w' Hw Hk Hs => step_same_origin u w w' i x Hw Hk Hs)
              h w Hwf H0) as [_ [_ Hsame]].
  apply stored_has_id in Hy as [Hin Hid]. apply stored_has_id in Hx as [_ Hxid].
  destruct (Hsame y Hin Hid). split_and!; congruence.
Qed.

Lemma origin_is_fixed_witness :
  exists y, stored (run history_sample world_milk) 1 = Some y
            /\ Task.user_id y = "u1" /\ Task.created_at y = 1000.
Proof.
  eexists. split; [vm_compute; reflexivity|].
  refine (proj2 (origin_is_fixed 1 task_milk history_sample world_milk _ _ _ _)).
  - apply (bool_decide_eq_true_1 (db_wf (db world_milk))). vm_compute. reflexivity.
  - reflexivity.
  - vm_compute. reflexivity.
Defined.

(** ** Time stamps *)

Lemma clock_monotone_le w a b :
  clock_monotone w -> (a <= b)%nat -> clock w a <= clock w b.
Proof.
  intros Hm Hab. induction Hab as [|b Hab IH]; [lia|].
  specialize (Hm b). lia.
Qed.

Lemma step_stamps u w w' :
  clock_monotone w /\ stamps_ordered w -> step u w w' ->
  clock_monotone w' /\ stamps_ordered w'.
Proof.
  intros [Hm Hst] Hs. unfold stamps_ordered in *. rewrite Forall_forall in Hst.
  assert (forall r, In r (rows (db w)) ->
            Task.created_at r <= Task.updated_at r
            /\ Task.updated_at r <= clock w (ticks w)) as Hst'
    by (intros r Hr; apply Hst; now apply list_elem_of_In).
  clear Hst.
  destruct Hs as [w0 Hd Hc Ht|s desc Hok|j x0 y Ho Hid Hu Hca Hua _ _|j x0 Ho];
    unfold clock_monotone; simpl.
  - rewrite Hc, Hd. split; [exact Hm|]. apply Forall_forall. intros r Hr.
    apply list_elem_of_In in Hr. destruct (Hst' r Hr) as [H1 H2]. split; [exact H1|].
    pose proof (clock_monotone_le w (ticks w) (ticks w0) Hm (proj1 Ht)). lia.
  - split; [exact Hm|]. apply Forall_forall. intros r Hr.
    apply list_elem_of_In in Hr.
    pose proof (Hm (ticks w)) as M1. pose proof (Hm (S (ticks w))) as M2.
    apply in_app_or in Hr as [Hr|[<-|[]]]; simpl.
    + destruct (Hst' r Hr). lia.
    + lia.
  - split; [exact Hm|]. apply Forall_forall. intros r Hr.
    apply list_elem_of_In in Hr. pose proof (Hm (ticks w)) as M1.
    apply in_map_iff in Hr as (r0 & Hr0 & Hin).
    destruct (has_id j r0).
    + subst r. simpl. destruct Ho as [Hsx _]. apply stored_has_id in Hsx as [Hx0 _].
      destruct (Hst' x0 Hx0). lia.
    + subst r0. destruct (Hst' r Hin). lia.
  - split; [exact Hm|]. apply Forall_forall. intros r Hr.
    apply list_elem_of_In in Hr. apply filter_In in Hr as [Hr _]. now apply Hst'.
Qed.

(** X7: with a clock that never runs backwards, time stamps stay in
    order: if no stored task was updated before it was created or after
    the clock's next reading, then the same holds after any history of
    requests; in particular every stored task has
    [created_at <= updated_at]. *)
Theorem stamps_stay_ordered h w :
  db_wf (db w) -> clock_monotone w -> stamps_ordered w ->
  stamps_ordered (run h w)
  /\ Forall (fun r => Task.created_at r <= Task.updated_at r) (rows (db (run h w))).
Proof.
  intros Hwf Hm Hst.
  destruct (run_preserves (fun w => clock_monotone w /\ stamps_ordered w)
              (fun u w w' _ Hk Hs => step_stamps u w w' Hk Hs)
              h w Hwf (conj Hm Hst)) as [_ [_ H]].
  split; [exact H|]. eapply Forall_impl; [exact H|]. now intros r [Hr _].
Qed.

Lemma stamps_stay_ordered_witness :
  Forall (fun r => Task.created_at r <= Task.updated_at r)
         (rows (db (run history_sample world_milk))).
Proof.
  refine (proj2 (stamps_stay_ordered history_sample world_milk _ _ _)).
  - apply (bool_decide_eq_true_1 (db_wf (db world_milk))). vm_compute. reflexivity.
  - intros n. unfold world_milk, clock_running. simpl. lia.
  - repeat constructor; vm_compute; discriminate.
Defined.

(** ** Titles at rest *)

Lemma lstrip_shape s :
  PyStr.lstrip s = ""
  \/ exists c r, PyStr.lstrip s = String c r /\ PyStr.isspace c = false.
Proof.
  induction s as [|c r IH]; simpl; [now left|].
  destruct (PyStr.isspace c) eqn:E; [exact IH|]. right. eauto.
Qed.

Lemma rstrip_cons c r :
  PyStr.rstrip (String c r)
  = match PyStr.rstrip r with
    | EmptyString => if PyStr.isspace c then EmptyString else String c EmptyString
    | String c' r' => String c (String c' r')
    end.
Proof. reflexivity. Qed.

Lemma rstrip_again s : PyStr.rstrip (PyStr.rstrip s) = PyStr.rstrip s.
Proof.
  induction s as [|c r IH]; [reflexivity|].
  rewrite (rstrip_cons c r).
  destruct (PyStr.rstrip r) as [|c' r'] eqn:E.
  - destruct (PyStr.isspace c) eqn:Ec; [reflexivity|].
    rewrite rstrip_cons. simpl. now rewrite Ec.
  - rewrite rstrip_cons, IH. reflexivity.
Qed.

Lemma rstrip_head c r :
  PyStr.isspace c = false -> exists r', PyStr.rstrip (String c r) = String c r'.
Proof.
  intros Hc. simpl. destruct (PyStr.rstrip r); [rewrite Hc|]; eauto.
Qed.

(** [strip] leaves nothing to strip. *)
Lemma strip_again s : PyStr.strip (PyStr.strip s) = PyStr.strip s.
Proof.
  unfold PyStr.strip. destruct (lstrip_shape s) as [->|(c & r & -> & Hc)]; [reflexivity|].
  destruct (rstrip_head c r Hc) as [r' E]. rewrite E.
  simpl PyStr.lstrip. rewrite Hc. rewrite <- E. apply rstrip_again.
Qed.

Lemma title_ok_at_rest s : title_ok s -> title_at_rest (PyStr.strip s).
Proof.
  intros Hok. split; [apply strip_again | now apply stored_title_fits].
Qed.

Lemma step_titles u w w' :
  titles_at_rest (db w) -> step u w w' -> titles_at_rest (db w').
Proof.
  unfold titles_at_rest. intros Ht Hs.
  destruct Hs as [w0 Hd _ _|s desc Hok|j x0 y Ho Hid Hu _ _ Hty _|j x0 Ho]; simpl.
  - now rewrite Hd.
  - apply Forall_app. split; [exact Ht|]. constructor; [|constructor].
    simpl. now apply title_ok_at_rest.
  - assert (title_at_rest (Task.title y)) as Hy.
    { destruct Hty as [->|(s & Hok & ->)]; [|now apply title_ok_at_rest].
      destruct Ho as [Hsx _]. apply stored_has_id in Hsx as [Hx0 _].
      rewrite Forall_forall in Ht. apply Ht. now apply list_elem_of_In. }
    induction Ht as [|r l Hr Hl IH]; simpl; [constructor|].
    constructor; [destruct (has_id j r); assumption | exact IH].
  - rewrite Forall_forall in *. intros r Hr. apply Ht.
    apply list_elem_of_In in Hr. apply filter_In in Hr as [Hr _].
    now apply list_elem_of_In.
Qed.

(** X8: the handlers only write titles the table accepts: if every stored
    title is stripped and has between 1 and 200 characters (the column is
    [String(200)] with the check [length(title) >= 1]), the same holds
    after any history of requests. *)
Theorem titles_stay_at_rest h w :
  db_wf (db w) -> titles_at_rest (db w) -> titles_at_rest (db (run h w)).
Proof.
  intros Hwf Ht.
  apply (run_preserves (fun w => titles_at_rest (db w))
           (fun u w w' _ Hk Hs => step_titles u w w' Hk Hs) h w Hwf Ht).
Qed.

Lemma titles_stay_at_rest_witness :
  titles_at_rest (db (run history_sample world_milk)).
Proof.
  apply (titles_stay_at_rest history_sample world_milk).
  - apply (bool_decide_eq_true_1 (db_wf (db world_milk))). vm_compute. reflexivity.
  - repeat constructor; vm_compute; lia.
Defined.

(** ** Keys handed out *)

Lemma effect_next_id u d d' : effect u d d' -> next_id d <= next_id d'.
Proof. intros [|x _ _ _|i x x' _ _ _ _ _|i x _ _]; simpl; lia. Qed.

Lemma create_result task_data a w t w1 :
  perform (Create task_data) a w = (inr [t], w1) ->
  Task.id t = Some (next_id (db w)) /\ next_id (db w1) = next_id (db w) + 1.
Proof.
  destruct task_data as [s desc]. unfold perform.
  destruct (decide (title_ok s)) as [Hok|Hbad].
  - destruct (decide (create_storable w a s desc)) as [Hst|Hn].
    + rewrite (perform_ok _ _ _ _ _ (create_task_ok s desc a w Hok Hst)).
      intros [= <- <-]. split; reflexivity.
    + destruct (create_task_refused s desc a w Hok Hn) as [m E].
      rewrite (session_raise _ _ _ _ (returning_raise _ _ _ _ _ E)). discriminate.
  - destruct (create_task_rejected s desc a w Hbad) as (e & E & _).
    rewrite (perform_raise _ _ _ _ E). discriminate.
Qed.

(** X9: keys are handed out in increasing order and never twice: of two
    successful creations, by any two identities and with any history of
    requests between them (deletions included), the later one gets the
    larger key. *)
Theorem keys_increase w a d1 t1 w1 h b d2 t2 w2 :
  db_wf (db w) ->
  perform (Create d1) a w = (inr [t1], w1) ->
  perform (Create d2) b (run h w1) = (inr [t2], w2) ->
  exists i1 i2, Task.id t1 = Some i1 /\ Task.id t2 = Some i2 /\ i1 < i2.
Proof.
  intros Hwf E1 E2.
  destruct (create_result d1 a w t1 w1 E1) as [Hi1 Hn1].
  destruct (create_result d2 b (run h w1) t2 w2 E2) as [Hi2 _].
  assert (db_wf (db w1)) as Hwf1.
  { pose proof (perform_wf (Create d1) a w Hwf) as H. now rewrite E1 in H. }
  destruct (run_preserves (fun w' => next_id (db w1) <= next_id (db w'))
              (fun u w' w'' _ Hk Hs =>
                 Z.le_trans _ _ _ Hk (effect_next_id u _ _ (step_effect u w' w'' Hs)))
              h w1 Hwf1 (Z.le_refl _)) as [_ Hle].
  exists (next_id (db w)), (next_id (db (run h w1))).
  split; [exact Hi1|]. split; [exact Hi2 | lia].
Qed.

Lemma keys_increase_witness :
  exists i1 i2, Task.id task_milk = Some i1
                /\ Task.id (created (run history_sample world_milk) "u2" "Call mum" None)
                   = Some i2
                /\ i1 < i2.
Proof.
  apply (keys_increase (world_empty clock_running) "u1" (mkTaskCreate "Buy milk" None)
           task_milk world_milk history_sample "u2" (mkTaskCreate "Call mum" None)
           (created (run history_sample world_milk) "u2" "Call mum" None)
           (after_create (run history_sample world_milk)
              (created (run history_sample world_milk) "u2" "Call mum" None))).
  - split; simpl; constructor.
  - vm_compute. reflexivity.
  - vm_compute. reflexivity.
Defined.

(** ** Responses *)

Lemma render_at_rest n r :
  row_ok n r -> title_at_rest (Task.title r) ->
  exists i b,
    Task.id r = Some i /\ Task.is_completed r = Some b
    /\ render r = Some (mkTaskRead (Task.title r) (Task.description r) i b
                                   (Task.created_at r) (Task.updated_at r)).
Proof.
  intros [Hid [b Hb]] [_ [H1 H2]]. unfold render.
  destruct (Task.id r) as [i|]; [|tauto]. rewrite Hb.
  apply Nat.leb_le in H1, H2. rewrite H1, H2. simpl. eauto.
Qed.

(** X10: responses always fit the response schema.  Starting from a
    table that satisfies its constraints and holds only titles at rest,
    after any history of requests every task an operation returns
    validates as a [TaskRead]: it has an integer [id], a boolean
    [is_completed] and a title within the bounds, and the body carries its
    title, description, id, flag and time stamps. *)
Theorem responses_render op u h w l :
  db_wf (db w) -> titles_at_rest (db w) ->
  (perform op u (run h w)).1 = inr l ->
  Forall (fun t =>
            exists i b,
              Task.id t = Some i /\ Task.is_completed t = Some b
              /\ render t = Some (mkTaskRead (Task.title t) (Task.description t) i b
                                             (Task.created_at t) (Task.updated_at t)))
         l.
Proof.
  intros Hwf Ht Hl.
  destruct (run_preserves (fun w => titles_at_rest (db w))
              (fun u w w' _ Hk Hs => step_titles u w w' Hk Hs) h w Hwf Ht) as [Hwf2 Ht2].
  destruct (perform_step op u (run h w) Hwf2) as [Hs Hin].
  pose proof (effect_wf u _ _ Hwf2 (step_effect u _ _ Hs)) as [_ Hok3].
  pose proof (step_titles u _ _ Ht2 Hs) as Ht3. unfold titles_at_rest in Ht3.
  rewrite Forall_forall in *. intros t Hin_t.
  apply list_elem_of_In in Hin_t. apply (Hin l Hl) in Hin_t.
  apply list_elem_of_In in Hin_t.
  apply (render_at_rest (next_id (db (perform op u (run h w)).2))); auto.
Qed.

Lemma responses_render_witness :
  Forall (fun t => is_Some (render t))
         (order_by_created_at_desc
            (List.filter (owned_by "u1") (rows (db (run history_sample world_milk))))).
Proof.
  eapply Forall_impl.
  - apply (responses_render ListAll "u1" history_sample world_milk).
    + apply (bool_decide_eq_true_1 (db_wf (db world_milk))). vm_compute. reflexivity.
    + repeat constructor; vm_compute; lia.
    + reflexivity.
  - intros t (i & b & _ & _ & E). rewrite E. eauto.
Defined.

(** ** Round trips *)

Lemma set_back x t t' :
  Task.is_completed x = Some false ->
  Task.set_updated_at t'
    (Task.set_is_completed (Some false)
       (Task.set_updated_at t (Task.set_is_completed (Some true) x)))
  = Task.set_updated_at t' x.
Proof. destruct x. simpl. now intros ->. Qed.

(** X13: complete followed by uncomplete gives the task back: on an owned
    task that is not completed, the task uncomplete returns and stores is
    the original one with nothing changed but [updated_at]. *)
Theorem complete_uncomplete_restores i u w x :
  owns w u i x -> Task.is_completed x = Some false ->
  exists c w1 n w2,
    get_session (complete_task i u) w = (inr c, w1)
    /\ get_session (uncomplete_task i u) w1 = (inr n, w2)
    /\ n = Task.set_updated_at (clock w (S (ticks w))) x
    /\ stored w2 i = Some n.
Proof.
  intros Ho Hx.
  pose proof (complete_task_ok i u w x Ho) as E1. simpl in E1.
  set (c := Task.set_updated_at (clock w (ticks w))
              (Task.set_is_completed (Some true) x)) in *.
  assert (owns (after_write i c w) u i c) as Ho1.
  { apply (owns_after_write i u x); [exact Ho | apply (owns_id _ _ _ _ Ho) | apply Ho]. }
  pose proof (uncomplete_task_ok i u _ c Ho1) as E2. simpl in E2.
  assert (Task.set_updated_at (clock w (S (ticks w)))
            (Task.set_is_completed (Some false) c)
          = Task.set_updated_at (clock w (S (ticks w))) x) as Hback
    by (unfold c; now apply set_back).
  rewrite Hback in E2.
  do 4 eexists. split; [apply session_ok, E1|]. split; [apply session_ok, E2|].
  split; [reflexivity|].
  apply (stored_after_write i c); [apply Ho1 | apply (owns_id _ _ _ _ Ho)].
Qed.

Lemma complete_uncomplete_restores_witness :
  exists c w1 n w2,
    get_session (complete_task 1 "u1") world_milk = (inr c, w1)
    /\ get_session (uncomplete_task 1 "u1") w1 = (inr n, w2)
    /\ n = Task.set_updated_at 1003 task_milk.
Proof.
  destruct (complete_uncomplete_restores 1 "u1" world_milk task_milk)
    as (c & w1 & n & w2 & E1 & E2 & Hn & _).
  - split; reflexivity.
  - reflexivity.
  - exists c, w1, n, w2. auto.
Defined.

Lemma filter_fresh_key n l x :
  Forall (row_ok n) l -> Task.id x = Some n ->
  List.filter (fun r => negb (has_id n r)) (l ++ [x]) = l.
Proof.
  intros Hl Hx. rewrite List.filter_app. simpl.
  apply has_id_true in Hx. rewrite Hx. simpl. rewrite app_nil_r.
  induction Hl as [|r l Hr Hl IH]; simpl; [reflexivity|].
  assert (has_id n r = false) as ->.
  { apply not_true_is_false. rewrite has_id_true. intros Hid.
    pose proof (row_ok_key n r n Hr Hid). lia. }
  simpl. now rewrite IH.
Qed.

(** X14: create followed by delete of the created task gives the table
    its rows back: when a creation has succeeded, the creator's delete of
    the new key succeeds and the rows are those before the creation, in
    the same order; only the key sequence has moved on by one. *)
Theorem create_delete_restores task_data u w x w1 :
  db_wf (db w) ->
  perform (Create task_data) u w = (inr [x], w1) ->
  exists w2,
    Task.id x = Some (next_id (db w))
    /\ perform (Delete (next_id (db w))) u w1 = (inr [], w2)
    /\ rows (db w2) = rows (db w)
    /\ next_id (db w2) = next_id (db w) + 1.
Proof.
  intros Hwf E.
  pose proof (perform_outcome (Create task_data) u w Hwf) as Hout. rewrite E in Hout.
  inversion Hout as [| |d' Hok Hst Hd Hr| | | | | | | | | | |]; subst.
  set (x := created w u (create_title task_data) (create_description task_data)) in *.
  assert (owns (after_create w x) u (next_id (db w)) x) as Ho.
  { split; [|reflexivity]. apply stored_in_wf.
    - apply (effect_wf u (db w)); [exact Hwf|].
      apply effect_insert; [reflexivity | reflexivity | eauto].
    - apply sequence_open_in_range, Hst.
    - simpl. apply in_or_app. right. now left.
    - reflexivity. }
  pose proof (perform_ok (fun _ => []) _ _ _ _
                (delete_task_ok (next_id (db w)) u (after_create w x) x Ho)) as E2.
  eexists. split; [reflexivity|]. split; [exact E2|].
  split; [|reflexivity]. simpl.
  apply filter_fresh_key; [apply Hwf | reflexivity].
Qed.

Lemma create_delete_restores_witness :
  exists w2,
    perform (Delete 2) "u1"
      (after_create world_milk (created world_milk "u1" "Buy bread" None))
    = (inr [], w2)
    /\ rows (db w2) = [task_milk].
Proof.
  destruct (create_delete_restores (mkTaskCreate "Buy bread" None) "u1" world_milk
              (created world_milk "u1" "Buy bread" None)
              (after_create world_milk (created world_milk "u1" "Buy bread" None)))
    as (w2 & _ & E2 & Hr & _).
  - apply (bool_decide_eq_true_1 (db_wf (db world_milk))). vm_compute. reflexivity.
  - vm_compute. reflexivity.
  - exists w2. split; [exact E2 | exact Hr].
Defined.
